(** * netspeed-monitor: the sampling pipeline of [extension.js]

    A shallow embedding of the GNOME Shell extension
    [netspeed-monitor@ajxv/extension.js]: the text processing of
    [_readNetworkStats], the rate computation of [_updateSpeed], the unit
    scaling of [_formatSpeedValue] and the timer handling of [startUpdate]
    and [stopUpdate].

    Conventions of the embedding.
    - A JavaScript number is an exact rational or [NaN] (type [number]).
      Integers read by [parseInt] and their sums are exact, division by the
      power of two 1024 is exact in binary floating point; the rounding of
      the division by [UPDATE_INTERVAL_SECONDS] is not modelled.
    - Text is a [string] of bytes; white space is ASCII white space, which is
      all that [/proc/net/dev] contains.
    - The GLib main loop is a record of the active timeout sources and of the
      reads in flight; what it may do next is an [event]. *)

From Stdlib Require Import ZArith QArith Qround Qabs Bool List Lia Lqa.
From Stdlib Require Import Permutation.
From Stdlib Require Import Ascii String DecimalString DecimalN.
Import ListNotations.

Open Scope string_scope.

(** ** JavaScript numbers *)

Module Js.

Inductive number : Type :=
| Fin (q : Q)
| NaN.

Definition ofZ (z : Z) : number := Fin (inject_Z z).

(** [a + b], [a - b], [a / b] on numbers: [NaN] is absorbing.  The results
    are the exact ones; those of the program are the same as long as they
    are integers of absolute value at most [2^53] (sums, differences) or
    the quotient is exact (by 1024 always, by 3 for a multiple of 3). *)
Definition add (a b : number) : number :=
  match a, b with
  | Fin x, Fin y => Fin (x + y)%Q
  | _, _ => NaN
  end.

Definition sub (a b : number) : number :=
  match a, b with
  | Fin x, Fin y => Fin (x - y)%Q
  | _, _ => NaN
  end.

(** Division by a non-zero constant, the only one the program performs. *)
Definition divc (a : number) (d : positive) : number :=
  match a with
  | Fin x => Fin (x / inject_Z (Zpos d))
  | NaN => NaN
  end.

(** [a >= b]: every comparison with [NaN] is false. *)
Definition geb (a b : number) : bool :=
  match a, b with
  | Fin x, Fin y => Qle_bool y x
  | _, _ => false
  end.

(** ToBoolean on a number: [0] and [NaN] are falsy. *)
Definition truthy (a : number) : bool :=
  match a with
  | Fin x => negb (Qeq_bool x 0)
  | NaN => false
  end.

(** [a ||= b] yields the value stored in [a] afterwards. *)
Definition or_assign (a b : number) : number :=
  if truthy a then a else b.

(** Equality of numbers as values ([NaN] is only related to itself here, the
    relation compares what is stored, it is not the operator [===]). *)
Definition same (a b : number) : Prop :=
  match a, b with
  | Fin x, Fin y => (x == y)%Q
  | NaN, NaN => True
  | _, _ => False
  end.

(** Decimal digits of a natural number, ["0"] for zero. *)
Definition decimal (n : N) : string :=
  NilZero.string_of_uint (N.to_uint n).

(** [x.toFixed(1)] for a finite [x]: the sign, then the integer [n] nearest
    to [10 * |x|] (the larger one on a tie) written with a point before its
    last digit.  Beyond [10^21] JavaScript switches to exponent notation;
    that range is excluded in the statements below. *)
Definition toFixed1_abs (a : Q) : string :=
  let n := Qfloor (a * 10 + (1 # 2))%Q in
  decimal (Z.to_N (n / 10)) ++ "." ++ decimal (Z.to_N (n mod 10)).

Definition toFixed1 (x : number) : string :=
  match x with
  | NaN => "NaN"
  | Fin q =>
      if Qle_bool 0 q then toFixed1_abs q
      else "-" ++ toFixed1_abs (Qabs q)
  end.

End Js.

Import Js.

(** ** Constants of the extension *)

Definition UPDATE_INTERVAL_SECONDS : positive := 3.

Definition NETWORK_INTERFACES_TO_IGNORE : list string :=
  ["lo"; "vir"; "vbox"; "docker"; "br-"].

(** ** [_formatSpeedValue] *)

Definition units : list string := ["B/s"; "KB/s"; "MB/s"; "GB/s"].

(** The [while] loop: [left] bounds the number of iterations still possible,
    [units.length - 1 - unitIndex] is enough (lemma [scale_fuel]). *)
Fixpoint scale (left : nat) (speed : number) (unitIndex : nat)
  : number * nat :=
  match left with
  | O => (speed, unitIndex)
  | S left' =>
      if geb speed (ofZ 1024) && (unitIndex <? List.length units - 1)%nat
      then scale left' (divc speed 1024) (S unitIndex)
      else (speed, unitIndex)
  end.

Definition _formatSpeedValue (bytes : number) : string :=
  let '(speed, unitIndex) := scale (List.length units - 1) bytes 0 in
  toFixed1 speed ++ " " ++ nth unitIndex units "undefined".


(** ** Strings: the library methods [_readNetworkStats] calls *)

Module Str.

(** White space of [trim] and of the pattern [\s], on ASCII text. *)
Definition isWs (c : ascii) : bool :=
  let n := nat_of_ascii c in
  (n =? 32)%nat || ((9 <=? n)%nat && (n <=? 13)%nat).

Definition isEmpty (s : string) : bool :=
  match s with
  | EmptyString => true
  | String _ _ => false
  end.

(** Every character of [s] satisfies [p]. *)
Fixpoint all (p : ascii -> bool) (s : string) : bool :=
  match s with
  | EmptyString => true
  | String c s' => p c && all p s'
  end.

Fixpoint trimStart (s : string) : string :=
  match s with
  | EmptyString => EmptyString
  | String c s' => if isWs c then trimStart s' else s
  end.

Fixpoint trimEnd (s : string) : string :=
  match s with
  | EmptyString => EmptyString
  | String c s' =>
      let t := trimEnd s' in
      if isWs c && isEmpty t then EmptyString else String c t
  end.

(** [s.trim()] *)
Definition trim (s : string) : string := trimEnd (trimStart s).

(** [s.split(c)] for a one-character separator: never the empty list. *)
Fixpoint split (c : ascii) (s : string) : list string :=
  match s with
  | EmptyString => [EmptyString]
  | String x s' =>
      if Ascii.eqb x c then EmptyString :: split c s'
      else match split c s' with
           | t :: ts => String x t :: ts
           | [] => [String x EmptyString]
           end
  end.

(** [s.split(/\s+/)]: a maximal run of white space is one separator;
    [prevWs] tells that the character before belongs to the current run. *)
Fixpoint splitWsFrom (prevWs : bool) (s : string) : list string :=
  match s with
  | EmptyString => [EmptyString]
  | String x s' =>
      if isWs x then
        if prevWs then splitWsFrom true s'
        else EmptyString :: splitWsFrom true s'
      else match splitWsFrom false s' with
           | t :: ts => String x t :: ts
           | [] => [String x EmptyString]
           end
  end.

Definition splitWs (s : string) : list string := splitWsFrom false s.

(** [s.startsWith(p)] *)
Definition startsWith (s p : string) : bool := String.prefix p s.

Definition digit (c : ascii) : option Z :=
  let n := nat_of_ascii c in
  if (48 <=? n)%nat && (n <=? 57)%nat then Some (Z.of_nat (n - 48)) else None.

Definition isDigit (c : ascii) : bool :=
  match digit c with Some _ => true | None => false end.

(** Value of the longest prefix of decimal digits, from accumulator [acc]. *)
Fixpoint digits (acc : Z) (s : string) : Z :=
  match s with
  | EmptyString => acc
  | String c s' =>
      match digit c with
      | Some d => digits (10 * acc + d) s'
      | None => acc
      end
  end.

Definition startsWithDigit (s : string) : bool :=
  match s with
  | String c _ => isDigit c
  | EmptyString => false
  end.

(** [parseInt(s, 10)]: leading white space, an optional sign, then the
    longest run of digits; [NaN] when there is no digit.  The value is the
    exact integer, which is what the program gets up to [2^53]. *)
Definition parseInt (s : string) : number :=
  let t := trimStart s in
  let '(sign, body) :=
    match t with
    | String "-" r => ((-1)%Z, r)
    | String "+" r => (1%Z, r)
    | _ => (1%Z, t)
    end in
  if startsWithDigit body then ofZ (sign * digits 0 body) else NaN.

End Str.

Import Str.

(** ** [_isIgnoredInterface] *)

Definition _isIgnoredInterface (interfaceName : string) : bool :=
  existsb (fun prefix => startsWith interfaceName prefix)
    NETWORK_INTERFACES_TO_IGNORE.

(** ** [_readNetworkStats] *)

Record stats : Type := mkStats {
  totalRxBytes : number;
  totalTxBytes : number
}.

(** How a promise settles. *)
Inductive settled (A : Type) : Type :=
| Resolved (a : A)
| Rejected.
Arguments Resolved {A} a.
Arguments Rejected {A}.

Definition LF : ascii := ascii_of_nat 10.

(** An element taken out of an array by destructuring; a missing element is
    [undefined], which [+=] turns into [NaN]. *)
Definition element (i : nat) (fields : list number) : number :=
  nth i fields NaN.

(** The two [continue] tests of the [for] loop on one line: [None] when the
    line is skipped, otherwise the white-space separated fields of its data
    part. *)
Definition candidate (line : string) : option (list string) :=
  let trimmed := trim line in
  if isEmpty trimmed then None
  else
    match split ":" trimmed with
    | iface :: data :: _ =>
        if isEmpty data || _isIgnoredInterface iface then None
        else Some (splitWs (trim data))
    | _ => None
    end.

(** The pair [rxBytes, txBytes] destructured from the parsed fields. *)
Definition lineBytes (line : string) : option (number * number) :=
  match candidate line with
  | Some fields =>
      let parsed := map parseInt fields in
      Some (element 0 parsed, element 8 parsed)
  | None => None
  end.

Definition addLine (acc : stats) (line : string) : stats :=
  match lineBytes line with
  | None => acc
  | Some (rxBytes, txBytes) =>
      mkStats (add (totalRxBytes acc) rxBytes) (add (totalTxBytes acc) txBytes)
  end.

(** The statements of the [try] block once the contents are loaded. *)
Definition parseStats (contents : string) : stats :=
  let lines := split LF contents in
  fold_left addLine (skipn 2 lines) (mkStats (ofZ 0) (ofZ 0)).

(** [contents] is [None] when [load_contents_finish] throws or reports no
    success: the [catch] block rejects the promise. *)
Definition _readNetworkStats (contents : option string) : settled stats :=
  match contents with
  | Some text => Resolved (parseStats text)
  | None => Rejected
  end.

(** ** The indicator and [_updateSpeed] *)

Record indicator : Type := mkIndicator {
  text : string;
  _previousRxBytes : number;
  _previousTxBytes : number;
  _updateTimer : option positive
}.

Definition _init : indicator :=
  mkIndicator "↓ 0 B/s ↑ 0 B/s" (ofZ 0) (ofZ 0) None.

(** [(total - previous) / UPDATE_INTERVAL_SECONDS] *)
Definition rate (total previous : number) : number :=
  divc (sub total previous) UPDATE_INTERVAL_SECONDS.

(** The argument of the first call of [_formatSpeedValue] in [_updateSpeed]:
    the previous value is the one [||=] leaves in the field. *)
Definition downloadRate (this : indicator) (s : stats) : number :=
  rate (totalRxBytes s) (or_assign (_previousRxBytes this) (totalRxBytes s)).

Definition uploadRate (this : indicator) (s : stats) : number :=
  rate (totalTxBytes s) (or_assign (_previousTxBytes this) (totalTxBytes s)).

(** [_updateSpeed] from the point where [await] hands back the settled
    promise.  On a rejection [await] throws and nothing below it runs; a
    resolved value is an object, so the test [!stats] never holds. *)
Definition _updateSpeed (this : indicator) (r : settled stats) : indicator :=
  match r with
  | Rejected => this
  | Resolved s =>
      let downloadSpeed := _formatSpeedValue (downloadRate this s) in
      let uploadSpeed := _formatSpeedValue (uploadRate this s) in
      mkIndicator ("↓ " ++ downloadSpeed ++ " ↑ " ++ uploadSpeed)
                  (totalRxBytes s) (totalTxBytes s) (_updateTimer this)
  end.

(** ** The main loop: timers and reads in flight *)

Record loop : Type := mkLoop {
  this : indicator;
  sources : list positive;   (* timeout sources GLib still fires *)
  nextId : positive;         (* the id [timeout_add_seconds] returns next *)
  pending : nat              (* reads issued and not yet completed *)
}.

Definition loop0 : loop := mkLoop _init [] 1%positive 0.

(** [_updateSpeed] up to its [await]: the read is issued. *)
Definition issueRead (w : loop) : loop :=
  mkLoop (this w) (sources w) (nextId w) (S (pending w)).

Definition setTimer (i : indicator) (t : option positive) : indicator :=
  mkIndicator (text i) (_previousRxBytes i) (_previousTxBytes i) t.

Definition startUpdate (w : loop) : loop :=
  let w1 := issueRead w in
  let id := nextId w1 in
  mkLoop (setTimer (this w1) (Some id)) (id :: sources w1)
         (Pos.succ id) (pending w1).

Definition source_remove (id : positive) (l : list positive) : list positive :=
  filter (fun x => negb (Pos.eqb x id)) l.

Definition stopUpdate (w : loop) : loop :=
  match _updateTimer (this w) with
  | Some id =>
      mkLoop (setTimer (this w) None) (source_remove id (sources w))
             (nextId w) (pending w)
  | None => w
  end.

Inductive event : Type :=
| StartUpdate
| StopUpdate
| TimerFired (id : positive)               (* GLib fires the source [id] *)
| ReadDone (contents : option string).  (* a read in flight completes *)

(** One turn of the main loop; [None] when the event cannot happen in [w]. *)
Definition step (w : loop) (e : event) : option loop :=
  match e with
  | StartUpdate => Some (startUpdate w)
  | StopUpdate => Some (stopUpdate w)
  | TimerFired id =>
      if existsb (Pos.eqb id) (sources w) then Some (issueRead w) else None
  | ReadDone contents =>
      match pending w with
      | O => None
      | S n =>
          Some (mkLoop (_updateSpeed (this w) (_readNetworkStats contents))
                       (sources w) (nextId w) n)
      end
  end.

Fixpoint run (w : loop) (es : list event) : option loop :=
  match es with
  | [] => Some w
  | e :: es' =>
      match step w e with
      | Some w' => run w' es'
      | None => None
      end
  end.

(** Events by kind. *)
Definition isStart (e : event) : bool :=
  match e with StartUpdate => true | _ => false end.

Definition isTimerFired (e : event) : bool :=
  match e with TimerFired _ => true | _ => false end.

Definition isReadDone (e : event) : bool :=
  match e with ReadDone _ => true | _ => false end.

(** The way [enable] and [disable] drive an indicator: [startUpdate] is only
    called while no timer is recorded in [_updateTimer]. *)
Fixpoint startsWhenIdle (w : loop) (es : list event) : bool :=
  match es with
  | [] => true
  | e :: es' =>
      (negb (isStart e) ||
       match _updateTimer (this w) with None => true | Some _ => false end)
      && match step w e with
         | Some w' => startsWhenIdle w' es'
         | None => true
         end
  end.

(** Every active source is the one recorded in [_updateTimer]. *)
Definition tracked (w : loop) : Prop :=
  sources w = match _updateTimer (this w) with
              | Some id => [id]
              | None => []
              end.

(** ** Well-formed snapshots of [/proc/net/dev]

    Two header lines, then one line per interface: the name right-aligned
    with spaces, a colon, and the counters in decimal, each after at least
    one space, every line ended by a line feed. *)

Module Snapshot.

Record row : Type := mkRow {
  indent : nat;                 (* spaces before the name *)
  name : string;
  counters : list (nat * N)     (* extra padding and value of each column *)
}.

Fixpoint spaces (n : nat) : string :=
  match n with
  | O => EmptyString
  | S n' => String " " (spaces n')
  end.

Fixpoint renderCounters (cs : list (nat * N)) : string :=
  match cs with
  | [] => EmptyString
  | (pad, v) :: cs' =>
      String " " (spaces pad ++ decimal v ++ renderCounters cs')
  end.

Definition renderRow (r : row) : string :=
  spaces (indent r) ++ name r ++ String ":" (renderCounters (counters r)).

Fixpoint renderRows (rs : list row) : string :=
  match rs with
  | [] => EmptyString
  | r :: rs' => renderRow r ++ String LF (renderRows rs')
  end.

Definition render (header1 header2 : string) (rs : list row) : string :=
  header1 ++ String LF (header2 ++ String LF (renderRows rs)).

(** An interface name: not empty, no white space and no colon. *)
Definition nameOk (s : string) : bool :=
  negb (isEmpty s) && all (fun c => negb (isWs c) && negb (Ascii.eqb c ":")) s.

Definition rowOk (r : row) : bool :=
  nameOk (name r) && (9 <=? List.length (counters r))%nat.

Definition headerOk (s : string) : bool :=
  all (fun c => negb (Ascii.eqb c LF)) s.

(** Receive bytes are the first column, transmit bytes the ninth. *)
Definition rxOf (r : row) : N := nth 0 (map snd (counters r)) 0%N.
Definition txOf (r : row) : N := nth 8 (map snd (counters r)) 0%N.

(** Sum of [f] over the rows whose interface is not ignored. *)
Fixpoint total (f : row -> N) (rs : list row) : N :=
  match rs with
  | [] => 0%N
  | r :: rs' =>
      if _isIgnoredInterface (name r) then total f rs'
      else (f r + total f rs')%N
  end.

End Snapshot.

(** Two readings hold the same values. *)
Definition sameStats (a b : stats) : Prop :=
  same (totalRxBytes a) (totalRxBytes b) /\
  same (totalTxBytes a) (totalTxBytes b).

(** The shape [toFixed(1)] gives a finite number: an optional minus sign,
    digits, a point, one digit. *)
Definition oneDecimal (s : string) : Prop :=
  exists sign whole d,
    s = sign ++ whole ++ "." ++ String d EmptyString /\
    (sign = "" \/ sign = "-") /\
    isEmpty whole = false /\ all isDigit whole = true /\ isDigit d = true.

(** The rate the specification describes:
    [max(0, current - previous) / intervalSeconds]. *)
Definition clampedRate (current previous : Q) : number :=
  Fin ((if Qle_bool 0 (current - previous) then current - previous else 0)
       / inject_Z (Zpos UPDATE_INTERVAL_SECONDS)).

(** ** Test data *)

Definition nl : string := String LF EmptyString.

Definition sample_text : string :=
  "Inter-|   Receive" ++ nl ++
  " face |bytes    packets" ++ nl ++
  "    lo: 5000 1 0 0 0 0 0 0 5000 1 0 0 0 0 0 0" ++ nl ++
  "  eth0: 1000 0 0 0 0 0 0 0 2000 0 0 0 0 0 0 0" ++ nl.

(** A data line that stops after three columns. *)
Definition short_text : string :=
  "Inter-|   Receive" ++ nl ++
  " face |bytes    packets" ++ nl ++
  "  eth0: 5 1 2" ++ nl.


Definition lo_row : Snapshot.row :=
  Snapshot.mkRow 4 "lo"
    (map (fun v => (0%nat, v)) [5000; 1; 0; 0; 0; 0; 0; 0; 5000; 1]%N).

Definition eth0_row : Snapshot.row :=
  Snapshot.mkRow 2 "eth0"
    (map (fun v => (3%nat, v)) [1000; 0; 0; 0; 0; 0; 0; 0; 2000; 0]%N).

(** The sample snapshot with its two data lines exchanged. *)
Definition swapped_text : string :=
  "Inter-|   Receive" ++ nl ++
  " face |bytes    packets" ++ nl ++
  "  eth0: 1000 0 0 0 0 0 0 0 2000 0 0 0 0 0 0 0" ++ nl ++
  "    lo: 5000 1 0 0 0 0 0 0 5000 1 0 0 0 0 0 0" ++ nl.

(** What an indicator shows and remembers: the label and the two totals. *)
Definition shown (i : indicator) : string * number * number :=
  (text i, _previousRxBytes i, _previousTxBytes i).

(** The contents of the reads that completed with success, in order. *)
Definition successes (es : list event) : list string :=
  flat_map (fun e => match e with
                     | ReadDone (Some contents) => [contents]
                     | _ => []
                     end) es.

(** The events that call [_updateSpeed] and so issue a read. *)
Definition issuesRead (e : event) : bool := isStart e || isTimerFired e.

(** The identifiers [timeout_add_seconds] has handed out are below
    [nextId], no source is listed twice, and the recorded timer is one of
    the active sources. *)
Definition consistent (w : loop) : Prop :=
  (forall id, In id (sources w) -> (id < nextId w)%positive) /\
  NoDup (sources w) /\
  (forall id, _updateTimer (this w) = Some id -> In id (sources w)).

(** ** The extension: [destroy], [enable] and [disable]

    Each indicator the extension creates is kept with the part of the main
    loop that concerns it: the timeout sources its own [startUpdate] added
    and its own reads in flight.  Identifiers stay unique over all
    indicators: a new indicator starts from the first unused one. *)

Module Ext.

(** [destroy]: the updates are stopped; destroying the actor then takes it
    out of its parent, which [disable] below does on the panel. *)
Definition destroy (w : loop) : loop := stopUpdate w.

Record shell : Type := mkShell {
  _indicator : option nat;   (* the indicator the extension holds *)
  indicators : list loop;    (* every indicator created so far *)
  rightBox : list nat;       (* children of [Main.panel._rightBox] *)
  freshId : positive         (* first identifier not yet handed out *)
}.

Definition shell0 : shell := mkShell None [] [] 1%positive.

Fixpoint update (n : nat) (f : loop -> loop) (l : list loop) {struct l}
  : list loop :=
  match l with
  | [] => []
  | x :: l' =>
      match n with
      | O => f x :: l'
      | S n' => x :: update n' f l'
      end
  end.

Definition enable (sh : shell) : shell :=
  let o := List.length (indicators sh) in
  let w := startUpdate (mkLoop _init [] (freshId sh) 0) in
  mkShell (Some o) (indicators sh ++ [w])%list (o :: rightBox sh) (nextId w).

Definition disable (sh : shell) : shell :=
  match _indicator sh with
  | Some o =>
      mkShell None (update o destroy (indicators sh))
              (filter (fun x => negb (Nat.eqb x o)) (rightBox sh))
              (freshId sh)
  | None => sh
  end.

Inductive action : Type :=
| Enable
| Disable
| Deliver (o : nat) (e : event).  (* the main loop calls back indicator [o] *)

(** Only timer firings and read completions come from the main loop;
    [startUpdate] and [stopUpdate] are called by [enable] and [destroy]. *)
Definition act (sh : shell) (a : action) : option shell :=
  match a with
  | Enable => Some (enable sh)
  | Disable => Some (disable sh)
  | Deliver o e =>
      if isTimerFired e || isReadDone e then
        match nth_error (indicators sh) o with
        | Some w =>
            match step w e with
            | Some w' =>
                Some (mkShell (_indicator sh)
                              (update o (fun _ => w') (indicators sh))
                              (rightBox sh) (freshId sh))
            | None => None
            end
        | None => None
        end
      else None
  end.

Fixpoint play (sh : shell) (acts : list action) : option shell :=
  match acts with
  | [] => Some sh
  | a :: acts' =>
      match act sh a with
      | Some sh' => play sh' acts'
      | None => None
      end
  end.

(** The order GNOME Shell keeps: [enable] is only called on an extension
    that holds no indicator. *)
Fixpoint enablesWhenDisabled (sh : shell) (acts : list action) : bool :=
  match acts with
  | [] => true
  | a :: acts' =>
      match a, _indicator sh with
      | Enable, Some _ => false
      | _, _ =>
          match act sh a with
          | Some sh' => enablesWhenDisabled sh' acts'
          | None => true
          end
      end
  end.

(** The indicator held, if any, has at most the timer it recorded; the
    others have none; the panel shows the indicator held and no other. *)
Definition tidy (sh : shell) : Prop :=
  (forall o w, nth_error (indicators sh) o = Some w ->
               (_indicator sh = Some o -> tracked w) /\
               (_indicator sh <> Some o -> sources w = [])) /\
  (forall o, _indicator sh = Some o ->
             (o < List.length (indicators sh))%nat) /\
  rightBox sh = match _indicator sh with Some o => [o] | None => [] end.

End Ext.

(** ** Where the embedding meets the doubles of the program

    A double holds every integer of absolute value up to [2^53], and sums
    and differences that stay in that range are exact; the quotient by 3
    is exact when the dividend is a multiple of 3; [toFixed] writes fixed
    notation below [10^21].  On ASCII text the white space of [trim], of
    [\s] and of [parseInt] is [isWs].  The statements that depend on these
    facts carry the conditions below. *)

Definition isAscii (c : ascii) : bool := (nat_of_ascii c <? 128)%nat.

Definition safeInteger (z : Z) : Prop := (Z.abs z <= 2 ^ 53)%Z.

(** A total is [NaN] or of absolute value at most [2^53]. *)
Definition inRange (x : number) : Prop :=
  match x with
  | Fin q => (Qabs q <= inject_Z (2 ^ 53))%Q
  | NaN => True
  end.

Definition magnitude (x : number) : Q :=
  match x with
  | Fin q => Qabs q
  | NaN => 0
  end.

(** What a line adds to the two totals, in absolute value. *)
Definition lineWeight (line : string) : Q :=
  match lineBytes line with
  | Some (rxBytes, txBytes) => magnitude rxBytes + magnitude txBytes
  | None => 0
  end.

Definition weight (lines : list string) : Q :=
  fold_right (fun line acc => lineWeight line + acc)%Q 0%Q lines.

(** * Properties *)

(** ** Numbers *)

Lemma same_refl (a : number) : same a a.
Proof. destruct a; simpl; [reflexivity | exact I]. Qed.

Lemma same_sym (a b : number) : same a b -> same b a.
Proof. destruct a, b; simpl; intros H; try exact H. symmetry. exact H. Qed.

Lemma same_trans (a b c : number) : same a b -> same b c -> same a c.
Proof.
  destruct a, b, c; simpl; intros H1 H2; try contradiction; try exact I.
  rewrite H1. exact H2.
Qed.

Lemma geb_same (a b c : number) : same a b -> geb a c = geb b c.
Proof.
  destruct a, b, c; simpl; intros H; try contradiction; try reflexivity.
  rewrite H. reflexivity.
Qed.

Lemma divc_same (a b : number) (d : positive) :
  same a b -> same (divc a d) (divc b d).
Proof.
  destruct a, b; simpl; intros H; try contradiction; try exact I.
  rewrite H. reflexivity.
Qed.

Lemma geb_le (x y : Q) : geb (Fin x) (Fin y) = true <-> (y <= x)%Q.
Proof. simpl. apply Qle_bool_iff. Qed.

Lemma geb_lt (x y : Q) : geb (Fin x) (Fin y) = false <-> (x < y)%Q.
Proof.
  simpl. split; intros H.
  - apply Qnot_le_lt. intros L. apply Qle_bool_iff in L. congruence.
  - destruct (Qle_bool y x) eqn:E; [|reflexivity].
    apply Qle_bool_iff in E. lra.
Qed.

Lemma add_NaN_l (a : number) : add NaN a = NaN.
Proof. reflexivity. Qed.


Lemma truthy_zero (p : Q) : (p == 0)%Q -> truthy (Fin p) = false.
Proof.
  intros H. simpl. apply negb_false_iff. apply Qeq_bool_iff. exact H.
Qed.

Lemma truthy_nonzero (p : Q) : ~ (p == 0)%Q -> truthy (Fin p) = true.
Proof.
  intros H. simpl. apply negb_true_iff.
  destruct (Qeq_bool p 0) eqn:E; [|reflexivity].
  apply Qeq_bool_iff in E. contradiction.
Qed.

(** ** Decimal notation *)

Lemma string_of_uint_digits (d : Decimal.uint) :
  all isDigit (NilEmpty.string_of_uint d) = true.
Proof. induction d; simpl; auto. Qed.

Lemma decimal_digits (n : N) : all isDigit (decimal n) = true.
Proof.
  unfold decimal, NilZero.string_of_uint.
  destruct (N.to_uint n); [reflexivity | ..]; apply string_of_uint_digits.
Qed.

Lemma decimal_nonempty (n : N) : isEmpty (decimal n) = false.
Proof.
  unfold decimal, NilZero.string_of_uint.
  destruct (N.to_uint n); reflexivity.
Qed.

Lemma decimal_one_digit (z : Z) :
  (0 <= z < 10)%Z ->
  exists c, decimal (Z.to_N z) = String c EmptyString /\ isDigit c = true.
Proof.
  intros H.
  assert (z = 0 \/ z = 1 \/ z = 2 \/ z = 3 \/ z = 4 \/ z = 5 \/ z = 6
          \/ z = 7 \/ z = 8 \/ z = 9)%Z as C by lia.
  repeat (destruct C as [C | C]; [subst z; eexists; split; reflexivity|]).
  subst z; eexists; split; reflexivity.
Qed.

Lemma toFixed1_abs_shape (a : Q) :
  exists whole d,
    toFixed1_abs a = whole ++ "." ++ String d EmptyString /\
    isEmpty whole = false /\ all isDigit whole = true /\ isDigit d = true.
Proof.
  unfold toFixed1_abs.
  set (n := Qfloor (a * 10 + (1 # 2))).
  destruct (decimal_one_digit (n mod 10)) as [c [Hc Hd]].
  { apply Z.mod_pos_bound. lia. }
  exists (decimal (Z.to_N (n / 10))), c. rewrite Hc.
  repeat split; auto using decimal_nonempty, decimal_digits.
Qed.

Lemma toFixed1_shape (q : Q) : oneDecimal (toFixed1 (Fin q)).
Proof.
  unfold toFixed1.
  destruct (Qle_bool 0 q).
  - destruct (toFixed1_abs_shape q) as [w [d [E H]]].
    exists "", w, d. rewrite E. simpl. tauto.
  - destruct (toFixed1_abs_shape (Qabs q)) as [w [d [E H]]].
    exists "-", w, d. rewrite E. simpl. tauto.
Qed.

Lemma toFixed1_same (a b : number) : same a b -> toFixed1 a = toFixed1 b.
Proof.
  destruct a as [x|], b as [y|]; simpl; intros H; try contradiction; auto.
  assert (Qle_bool 0 x = Qle_bool 0 y) as E0 by (rewrite H; reflexivity).
  assert (Qfloor (x * 10 + (1 # 2)) = Qfloor (y * 10 + (1 # 2))) as E1
    by (apply Qfloor_comp; rewrite H; reflexivity).
  assert (Qfloor (Qabs x * 10 + (1 # 2)) = Qfloor (Qabs y * 10 + (1 # 2)))
    as E2 by (apply Qfloor_comp; rewrite H; reflexivity).
  unfold toFixed1_abs. rewrite E0, E1, E2. reflexivity.
Qed.

(** ** [_formatSpeedValue] *)

(** The loop needs no more turns than there are larger units left. *)
Lemma scale_fuel (n : nat) (speed : number) (unitIndex : nat) :
  (List.length units - 1 - unitIndex <= n)%nat ->
  scale n speed unitIndex = scale (List.length units - 1 - unitIndex) speed unitIndex.
Proof.
  change (List.length units - 1)%nat with 3%nat.
  revert speed unitIndex.
  induction n as [|n IH]; intros speed i H.
  - replace (3 - i)%nat with 0%nat by lia. reflexivity.
  - destruct (Nat.ltb_spec i 3) as [L|L].
    + replace (3 - i)%nat with (S (3 - S i)) by lia.
      cbn [scale]. change (List.length units - 1)%nat with 3%nat.
      destruct (geb speed (ofZ 1024) && (i <? 3)%nat); [|reflexivity].
      apply IH. lia.
    + replace (3 - i)%nat with 0%nat by lia.
      cbn [scale]. change (List.length units - 1)%nat with 3%nat.
      replace (i <? 3)%nat with false by (symmetry; apply Nat.ltb_ge; exact L).
      rewrite andb_false_r. reflexivity.
Qed.

Lemma scale_same (n : nat) (a b : number) (i : nat) :
  same a b ->
  same (fst (scale n a i)) (fst (scale n b i)) /\
  snd (scale n a i) = snd (scale n b i).
Proof.
  revert a b i. induction n as [|n IH]; intros a b i H; simpl.
  - split; [exact H | reflexivity].
  - rewrite (geb_same a b _ H).
    destruct (geb b (ofZ 1024) && (i <? 3)%nat).
    + apply IH. apply divc_same. exact H.
    + split; [exact H | reflexivity].
Qed.

Lemma formatSpeedValue_same (a b : number) :
  same a b -> _formatSpeedValue a = _formatSpeedValue b.
Proof.
  intros H. unfold _formatSpeedValue.
  destruct (scale_same (List.length units - 1) a b 0 H) as [H1 H2].
  destruct (scale _ a 0) as [sa ia], (scale _ b 0) as [sb ib].
  simpl in H1, H2. subst ib. rewrite (toFixed1_same _ _ H1). reflexivity.
Qed.

Lemma formatSpeedValue_zero (q : Q) :
  (q == 0)%Q -> _formatSpeedValue (Fin q) = "0.0 B/s".
Proof.
  intros H. rewrite (formatSpeedValue_same (Fin q) (ofZ 0)); [reflexivity|].
  exact H.
Qed.

Lemma formatSpeedValue_NaN : _formatSpeedValue NaN = "NaN B/s".
Proof. reflexivity. Qed.

Section FormatCases.

Variable b : Q.

Lemma format_bytes :
  (b < 1024)%Q -> _formatSpeedValue (Fin b) = toFixed1 (Fin b) ++ " B/s".
Proof.
  intros H. unfold _formatSpeedValue. cbn [List.length units Nat.sub scale]. unfold ofZ.
  rewrite (proj2 (geb_lt b (inject_Z 1024))) by exact H. reflexivity.
Qed.

Lemma format_kilo :
  (1024 <= b)%Q -> (b < 1024 * 1024)%Q ->
  _formatSpeedValue (Fin b) = toFixed1 (Fin (b / 1024)) ++ " KB/s".
Proof.
  intros H1 H2. unfold _formatSpeedValue.
  cbn [List.length units Nat.sub scale divc]. unfold ofZ.
  rewrite (proj2 (geb_le b (inject_Z 1024))) by exact H1.
  rewrite (proj2 (geb_lt (b / inject_Z 1024) (inject_Z 1024))).
  - reflexivity.
  - apply Qlt_shift_div_r; [reflexivity|]. unfold inject_Z. lra.
Qed.

Lemma format_mega :
  (1024 * 1024 <= b)%Q -> (b < 1024 * 1024 * 1024)%Q ->
  _formatSpeedValue (Fin b) = toFixed1 (Fin (b / 1024 / 1024)) ++ " MB/s".
Proof.
  intros H1 H2. unfold _formatSpeedValue.
  cbn [List.length units Nat.sub scale divc]. unfold ofZ.
  rewrite (proj2 (geb_le b (inject_Z 1024))) by (unfold inject_Z; lra).
  rewrite (proj2 (geb_le (b / inject_Z 1024) (inject_Z 1024))).
  2:{ apply Qle_shift_div_l; [reflexivity|]. unfold inject_Z. lra. }
  rewrite (proj2 (geb_lt (b / inject_Z 1024 / inject_Z 1024) (inject_Z 1024))).
  - reflexivity.
  - apply Qlt_shift_div_r; [reflexivity|].
    apply Qlt_shift_div_r; [reflexivity|]. unfold inject_Z. lra.
Qed.

(** From [1024^3] on the unit is GB/s whatever the size of the value. *)
Lemma format_giga :
  (1024 * 1024 * 1024 <= b)%Q ->
  _formatSpeedValue (Fin b) = toFixed1 (Fin (b / 1024 / 1024 / 1024)) ++ " GB/s".
Proof.
  intros H1. unfold _formatSpeedValue.
  cbn [List.length units Nat.sub scale divc]. unfold ofZ.
  rewrite (proj2 (geb_le b (inject_Z 1024))) by (unfold inject_Z; lra).
  rewrite (proj2 (geb_le (b / inject_Z 1024) (inject_Z 1024))).
  2:{ apply Qle_shift_div_l; [reflexivity|]. unfold inject_Z. lra. }
  rewrite (proj2 (geb_le (b / inject_Z 1024 / inject_Z 1024) (inject_Z 1024))).
  2:{ apply Qle_shift_div_l; [reflexivity|].
      apply Qle_shift_div_l; [reflexivity|]. unfold inject_Z. lra. }
  reflexivity.
Qed.

Lemma format_shape :
  exists s u, _formatSpeedValue (Fin b) = s ++ " " ++ u /\
              oneDecimal s /\ In u units.
Proof.
  destruct (Qlt_le_dec b 1024) as [H1|H1].
  { eexists _, _. split; [apply format_bytes, H1|].
    split; [apply toFixed1_shape | simpl; tauto]. }
  destruct (Qlt_le_dec b (1024 * 1024)) as [H2|H2].
  { eexists _, _. split; [apply format_kilo; assumption|].
    split; [apply toFixed1_shape | simpl; tauto]. }
  destruct (Qlt_le_dec b (1024 * 1024 * 1024)) as [H3|H3].
  { eexists _, _. split; [apply format_mega; assumption|].
    split; [apply toFixed1_shape | simpl; tauto]. }
  eexists _, _. split; [apply format_giga; assumption|].
  split; [apply toFixed1_shape | simpl; tauto].
Qed.

End FormatCases.

(** C6: the formatter divides by 1024 and moves to the next unit while the
    value is at least 1024 and a larger unit is left, stays at GB/s beyond
    that, and writes the scaled value with one decimal digit, a space and
    the unit; [format(0)], [format(1023)], [format(1024)], [format(1536)]
    and [format(5 * 1024 * 1024)] give the five strings of the
    specification.  The bound on [b] is the range in which [toFixed] uses
    fixed notation. *)
Theorem formatSpeedValue_spec (b : Q) :
  (Qabs b < inject_Z (10 ^ 21))%Q ->
  (_formatSpeedValue (ofZ 0) = "0.0 B/s" /\
   _formatSpeedValue (ofZ 1023) = "1023.0 B/s" /\
   _formatSpeedValue (ofZ 1024) = "1.0 KB/s" /\
   _formatSpeedValue (ofZ 1536) = "1.5 KB/s" /\
   _formatSpeedValue (ofZ (1024 * 1024 * 5)) = "5.0 MB/s") /\
  ((b < 1024)%Q ->
   _formatSpeedValue (Fin b) = toFixed1 (Fin b) ++ " B/s") /\
  ((1024 <= b)%Q -> (b < 1024 * 1024)%Q ->
   _formatSpeedValue (Fin b) = toFixed1 (Fin (b / 1024)) ++ " KB/s") /\
  ((1024 * 1024 <= b)%Q -> (b < 1024 * 1024 * 1024)%Q ->
   _formatSpeedValue (Fin b) = toFixed1 (Fin (b / 1024 / 1024)) ++ " MB/s") /\
  ((1024 * 1024 * 1024 <= b)%Q ->
   _formatSpeedValue (Fin b)
   = toFixed1 (Fin (b / 1024 / 1024 / 1024)) ++ " GB/s") /\
  (exists s u, _formatSpeedValue (Fin b) = s ++ " " ++ u /\
               oneDecimal s /\ In u units).
Proof.
  intros _.
  split; [repeat split; vm_compute; reflexivity|].
  split; [apply format_bytes|].
  split; [apply format_kilo|].
  split; [apply format_mega|].
  split; [apply format_giga | apply format_shape].
Qed.

Lemma formatSpeedValue_spec_witness :
  (Qabs 1536 < inject_Z (10 ^ 21))%Q /\
  _formatSpeedValue (Fin 1536) = toFixed1 (Fin (1536 / 1024)) ++ " KB/s".
Proof.
  assert (Qabs 1536 < inject_Z (10 ^ 21))%Q as H by reflexivity.
  split; [exact H|].
  destruct (formatSpeedValue_spec 1536 H) as [_ [_ [K _]]].
  apply K; [discriminate | reflexivity].
Defined.

(** ** Rates *)

Lemma rate_fin (c p : Q) :
  ~ (p == 0)%Q ->
  rate (Fin c) (or_assign (Fin p) (Fin c)) = Fin ((c - p) / 3).
Proof.
  intros H. unfold or_assign. rewrite (truthy_nonzero p H). reflexivity.
Qed.

Lemma rate_reinit (c p : Q) :
  (p == 0)%Q ->
  or_assign (Fin p) (Fin c) = Fin c /\
  same (rate (Fin c) (or_assign (Fin p) (Fin c))) (ofZ 0).
Proof.
  intros H. unfold or_assign. rewrite (truthy_zero p H).
  split; [reflexivity|]. simpl. unfold Qdiv. ring.
Qed.

Lemma rate_sign (c p : Q) :
  ((p <= c)%Q -> same (Fin ((c - p) / 3)) (clampedRate c p)) /\
  ((c < p)%Q -> ((c - p) / 3 < 0)%Q).
Proof.
  split; intros H.
  - unfold clampedRate.
    replace (Qle_bool 0 (c - p)) with true.
    + simpl. reflexivity.
    + symmetry. apply Qle_bool_iff. lra.
  - apply Qlt_shift_div_r; [reflexivity|]. lra.
Qed.

Lemma rate_of_integers (p c : Z) :
  p <> 0%Z ->
  rate (ofZ c) (or_assign (ofZ p) (ofZ c)) = rate (ofZ c) (ofZ p) /\
  exists r,
    rate (ofZ c) (ofZ p) = Fin r /\
    ((c < p)%Z -> (r < 0)%Q) /\
    (c = p -> (r == 0)%Q) /\
    ((p < c)%Z -> (0 < r)%Q) /\
    ((3 | c - p)%Z ->
     (r == inject_Z ((c - p) / 3))%Q /\
     ((p <= c)%Z -> same (Fin r) (clampedRate (inject_Z c) (inject_Z p)))).
Proof.
  intros Hp. split.
  - unfold or_assign, ofZ. rewrite truthy_nonzero; [reflexivity|].
    intros E. apply Hp. apply (inject_Z_injective p 0). exact E.
  - exists ((inject_Z c - inject_Z p) / 3)%Q. split; [reflexivity|].
    split; [|split; [|split]].
    + intros L. rewrite Zlt_Qlt in L.
      apply Qlt_shift_div_r; [reflexivity|]. lra.
    + intros ->. unfold Qdiv. ring.
    + intros L. rewrite Zlt_Qlt in L.
      apply Qlt_shift_div_l; [reflexivity|]. lra.
    + intros [k K]. split.
      * assert (inject_Z c - inject_Z p == inject_Z (k * 3))%Q as D
          by (rewrite <- K; unfold Z.sub;
              rewrite inject_Z_plus, inject_Z_opp; reflexivity).
        rewrite K, Z.div_mul by discriminate.
        rewrite D, inject_Z_mult. change (inject_Z 3) with 3%Q. field.
      * intros L. rewrite Zle_Qle in L.
        apply (proj1 (rate_sign (inject_Z c) (inject_Z p))). exact L.
Qed.




(** C4: on the first completed read after [startUpdate], with the fields as
    [_init] left them, both rates are zero whatever the totals read, the
    label shows zero, and the totals read become the stored baseline. *)
Theorem first_tick_rate_zero (rx tx : Q) :
  let this0 := this (startUpdate loop0) in
  let s := mkStats (Fin rx) (Fin tx) in
  let this1 := _updateSpeed this0 (Resolved s) in
  _previousRxBytes this0 = ofZ 0 /\ _previousTxBytes this0 = ofZ 0 /\
  same (downloadRate this0 s) (ofZ 0) /\
  same (uploadRate this0 s) (ofZ 0) /\
  text this1 = "↓ 0.0 B/s ↑ 0.0 B/s" /\
  _previousRxBytes this1 = Fin rx /\ _previousTxBytes this1 = Fin tx.
Proof.
  cbv zeta.
  assert (same (downloadRate (this (startUpdate loop0))
                             (mkStats (Fin rx) (Fin tx))) (ofZ 0)) as Hd
    by (apply (rate_reinit rx 0); reflexivity).
  assert (same (uploadRate (this (startUpdate loop0))
                           (mkStats (Fin rx) (Fin tx))) (ofZ 0)) as Hu
    by (apply (rate_reinit tx 0); reflexivity).
  repeat split; try reflexivity; try assumption.
  cbn [_updateSpeed text].
  rewrite (formatSpeedValue_same _ _ Hd), (formatSpeedValue_same _ _ Hu).
  reflexivity.
Qed.

(** C5: a stored previous total of zero counts as no previous sample:
    [||=] puts the current total in its place and the rate is zero whatever
    was received, for rx and for tx; so it is on the tick after a sample
    whose total was zero. *)
Theorem zero_baseline_is_reinitialised
  (this : indicator) (s : stats) (p c : Q) :
  (p == 0)%Q ->
  (_previousRxBytes this = Fin p -> totalRxBytes s = Fin c ->
   or_assign (_previousRxBytes this) (totalRxBytes s) = Fin c /\
   same (downloadRate this s) (ofZ 0)) /\
  (_previousTxBytes this = Fin p -> totalTxBytes s = Fin c ->
   or_assign (_previousTxBytes this) (totalTxBytes s) = Fin c /\
   same (uploadRate this s) (ofZ 0)) /\
  (forall (this0 : indicator) (other : number),
     same (downloadRate (_updateSpeed this0 (Resolved (mkStats (Fin p) other)))
                        (mkStats (Fin c) other)) (ofZ 0) /\
     same (uploadRate (_updateSpeed this0 (Resolved (mkStats other (Fin p))))
                      (mkStats other (Fin c))) (ofZ 0)).
Proof.
  intros Hp. split; [|split].
  - intros E1 E2. unfold downloadRate. rewrite E1, E2.
    apply rate_reinit. exact Hp.
  - intros E1 E2. unfold uploadRate. rewrite E1, E2.
    apply rate_reinit. exact Hp.
  - intros this0 other. split; apply (rate_reinit c p Hp).
Qed.

Lemma zero_baseline_is_reinitialised_witness :
  same (downloadRate (mkIndicator "" (ofZ 0) (ofZ 7) None)
                     (mkStats (ofZ 9000) (ofZ 7))) (ofZ 0).
Proof.
  assert (0 == 0)%Q as H by reflexivity.
  destruct (zero_baseline_is_reinitialised
              (mkIndicator "" (ofZ 0) (ofZ 7) None)
              (mkStats (ofZ 9000) (ofZ 7)) 0 9000 H) as [K _].
  destruct (K eq_refl eq_refl) as [_ E]. exact E.
Defined.

(** ** The main loop *)

Lemma updateSpeed_timer (i : indicator) (r : settled stats) :
  _updateTimer (_updateSpeed i r) = _updateTimer i.
Proof. destruct r; reflexivity. Qed.

Lemma source_remove_self (id : positive) : source_remove id [id] = [].
Proof. unfold source_remove. simpl. rewrite Pos.eqb_refl. reflexivity. Qed.

Lemma tracked_loop0 : tracked loop0.
Proof. reflexivity. Qed.

Lemma tracked_step (w w' : loop) (e : event) :
  tracked w ->
  (isStart e = true -> _updateTimer (this w) = None) ->
  step w e = Some w' -> tracked w'.
Proof.
  unfold tracked. intros T I S.
  destruct e as [| |id|contents]; simpl in S.
  - injection S as <-. simpl. rewrite T, (I eq_refl). reflexivity.
  - injection S as <-. unfold stopUpdate.
    destruct (_updateTimer (this w)) as [id|] eqn:E.
    + simpl. rewrite T. apply source_remove_self.
    + rewrite E. exact T.
  - destruct (existsb (Pos.eqb id) (sources w)); [|discriminate].
    injection S as <-. exact T.
  - destruct (pending w); [discriminate|].
    injection S as <-. simpl. rewrite updateSpeed_timer. exact T.
Qed.

Lemma tracked_run (es : list event) (w w' : loop) :
  tracked w -> startsWhenIdle w es = true -> run w es = Some w' ->
  tracked w'.
Proof.
  revert w. induction es as [|e es IH]; intros w T D R; simpl in *.
  - injection R as <-. exact T.
  - apply andb_true_iff in D. destruct D as [D1 D2].
    destruct (step w e) as [w1|] eqn:S; [|discriminate].
    apply (IH w1); auto.
    apply (tracked_step w w1 e T); auto.
    intros St. rewrite St in D1. simpl in D1.
    destruct (_updateTimer (this w)); [discriminate | reflexivity].
Qed.

Lemma tracked_stop (w : loop) : tracked w -> sources (stopUpdate w) = [].
Proof.
  unfold tracked, stopUpdate. intros T.
  destruct (_updateTimer (this w)) as [id|].
  - simpl. rewrite T. apply source_remove_self.
  - exact T.
Qed.

Lemma stopUpdate_timer (w : loop) : _updateTimer (this (stopUpdate w)) = None.
Proof.
  unfold stopUpdate. destruct (_updateTimer (this w)) eqn:E; [reflexivity|].
  exact E.
Qed.

Lemma stopUpdate_idem (w : loop) : stopUpdate (stopUpdate w) = stopUpdate w.
Proof.
  unfold stopUpdate at 1. rewrite stopUpdate_timer. reflexivity.
Qed.

(** C3: a read that fails leaves the indicator as it was, the previous
    totals included, and removes no timer, so a later read is measured
    against the totals stored before the failure. *)
Theorem failed_read_keeps_baseline (w w' : loop) :
  step w (ReadDone None) = Some w' ->
  this w' = this w /\
  sources w' = sources w /\
  (forall id, step w (TimerFired id) <> None -> step w' (TimerFired id) <> None) /\
  (forall contents,
     option_map this (step (issueRead w') (ReadDone contents))
     = option_map this (step (issueRead w) (ReadDone contents))) /\
  (forall s, downloadRate (this w') s = downloadRate (this w) s /\
             uploadRate (this w') s = uploadRate (this w) s).
Proof.
  simpl. destruct (pending w) as [|n]; [discriminate|].
  intros E. injection E as <-. simpl.
  repeat split; auto.
  intros id. destruct (existsb (Pos.eqb id) (sources w)); congruence.
Qed.

Lemma failed_read_keeps_baseline_witness :
  let i := mkIndicator "" (ofZ 100) (ofZ 200) (Some 1%positive) in
  let w := mkLoop i [1%positive] 2%positive 1 in
  let w' := mkLoop i [1%positive] 2%positive 0 in
  step w (ReadDone None) = Some w' /\
  downloadRate (this w') (mkStats (ofZ 1000) (ofZ 2000))
  = Fin ((1000 - 100) / 3).
Proof.
  cbv zeta. split; [reflexivity|].
  destruct (failed_read_keeps_baseline
              (mkLoop (mkIndicator "" (ofZ 100) (ofZ 200) (Some 1%positive))
                      [1%positive] 2%positive 1)
              (mkLoop (mkIndicator "" (ofZ 100) (ofZ 200) (Some 1%positive))
                      [1%positive] 2%positive 0)
              eq_refl) as [_ [_ [_ [_ K]]]].
  destruct (K (mkStats (ofZ 1000) (ofZ 2000))) as [E _].
  rewrite E. reflexivity.
Defined.

(** C8 (as amended): as long as [startUpdate] is only called while no timer
    is recorded, at most one timeout source is active in every state
    reached, it is the recorded one, and [stopUpdate] leaves none. *)
Theorem one_timer_when_started_idle (es : list event) (w : loop) :
  startsWhenIdle loop0 es = true ->
  run loop0 es = Some w ->
  (List.length (sources w) <= 1)%nat /\
  tracked w /\
  sources (stopUpdate w) = [].
Proof.
  intros D R.
  assert (tracked w) as T by (apply (tracked_run es loop0 w); auto using tracked_loop0).
  split; [|split; [exact T | apply tracked_stop; exact T]].
  rewrite T. destruct (_updateTimer (this w)); simpl; lia.
Qed.

Lemma one_timer_when_started_idle_witness :
  exists w,
    run loop0 [StartUpdate; TimerFired 1%positive; StopUpdate; StartUpdate]
    = Some w /\ (List.length (sources w) <= 1)%nat.
Proof.
  eexists. split; [reflexivity|].
  apply (one_timer_when_started_idle
           [StartUpdate; TimerFired 1%positive; StopUpdate; StartUpdate]);
    reflexivity.
Defined.

(** C8 fails as stated: two calls of [startUpdate] in a row leave two
    active sources, and [stopUpdate] removes only the second. *)
Lemma second_start_leaks_timer :
  option_map sources (run loop0 [StartUpdate; StartUpdate])
  = Some [2%positive; 1%positive] /\
  option_map sources (run loop0 [StartUpdate; StartUpdate; StopUpdate])
  = Some [1%positive] /\
  option_map (fun w => _updateTimer (this w))
             (run loop0 [StartUpdate; StartUpdate; StopUpdate])
  = Some None.
Proof. repeat split; reflexivity. Qed.

Lemma source_remove_gone (id : positive) (l : list positive) :
  ~ In id (source_remove id l).
Proof.
  unfold source_remove. intros H. apply filter_In in H.
  destruct H as [_ H]. rewrite Pos.eqb_refl in H. discriminate.
Qed.

(** C10 (as amended): [stopUpdate] always completes; a second call in a
    row changes nothing, and neither does a call on an indicator that never
    started; after a call no timer is recorded and the source that was
    recorded is no longer active; no source at all is active after the
    first call nor after the second in the states reached with
    [startUpdate] called while idle only: a source left by a second start
    stays. *)
Theorem stopUpdate_idempotent (w : loop) :
  step w StopUpdate = Some (stopUpdate w) /\
  step (stopUpdate w) StopUpdate = Some (stopUpdate w) /\
  _updateTimer (this (stopUpdate w)) = None /\
  (forall id, _updateTimer (this w) = Some id ->
              ~ In id (sources (stopUpdate w))) /\
  (stopUpdate loop0 = loop0 /\ sources loop0 = []) /\
  (forall es,
     startsWhenIdle loop0 es = true -> run loop0 es = Some w ->
     sources (stopUpdate w) = [] /\
     sources (stopUpdate (stopUpdate w)) = []).
Proof.
  split; [reflexivity|].
  split; [simpl; rewrite stopUpdate_idem; reflexivity|].
  split; [apply stopUpdate_timer|].
  split; [|split; [split; reflexivity|]].
  - intros id E. unfold stopUpdate. rewrite E. simpl.
    apply source_remove_gone.
  - intros es D R.
    assert (tracked w) as T
      by (apply (tracked_run es loop0 w); auto using tracked_loop0).
    rewrite stopUpdate_idem. split; apply tracked_stop; exact T.
Qed.

Lemma stopUpdate_idempotent_witness :
  sources (startUpdate loop0) = [1%positive] /\
  sources (stopUpdate (stopUpdate (startUpdate loop0))) = [].
Proof.
  split; [reflexivity|].
  destruct (stopUpdate_idempotent (startUpdate loop0))
    as [_ [_ [_ [_ [_ K]]]]].
  destruct (K [StartUpdate] eq_refl eq_refl) as [_ E]. exact E.
Defined.

(** C10 fails as stated: after two calls of [startUpdate], two calls of
    [stopUpdate] in a row complete, and the source of the first start is
    still active after each of them. *)
Lemma stop_twice_leaves_first_timer :
  option_map sources (run loop0 [StartUpdate; StartUpdate; StopUpdate])
  = Some [1%positive] /\
  option_map sources
    (run loop0 [StartUpdate; StartUpdate; StopUpdate; StopUpdate])
  = Some [1%positive].
Proof. split; reflexivity. Qed.

Lemma stopUpdate_pending (w : loop) : pending (stopUpdate w) = pending w.
Proof. unfold stopUpdate. destruct (_updateTimer (this w)); reflexivity. Qed.

Lemma stopUpdate_nextId (w : loop) : nextId (stopUpdate w) = nextId w.
Proof. unfold stopUpdate. destruct (_updateTimer (this w)); reflexivity. Qed.

Lemma stopUpdate_idle (w : loop) :
  _updateTimer (this w) = None -> stopUpdate w = w.
Proof. unfold stopUpdate. intros E. rewrite E. reflexivity. Qed.

(** With no source active and no new start, all that can still happen is
    the completion of the reads in flight. *)
Lemma idle_run (es : list event) (w w' : loop) :
  sources w = [] -> _updateTimer (this w) = None ->
  existsb isStart es = false ->
  run w es = Some w' ->
  existsb isTimerFired es = false /\
  (List.length (filter isReadDone es) <= pending w)%nat /\
  sources w' = [].
Proof.
  revert w. induction es as [|e es IH]; intros w S0 T0 NS R.
  - simpl in *. injection R as <-. repeat split; auto. lia.
  - simpl in NS. apply orb_false_iff in NS. destruct NS as [NS1 NS2].
    destruct e as [| |id|contents]; try discriminate; simpl in R.
    + rewrite (stopUpdate_idle w T0) in R.
      destruct (IH w S0 T0 NS2 R) as [A [B C]]. simpl. auto.
    + rewrite S0 in R. simpl in R. discriminate.
    + destruct (pending w) as [|n] eqn:P; [discriminate|].
      simpl in R.
      apply IH in R;
        [| exact S0 | simpl; rewrite updateSpeed_timer; exact T0 | exact NS2].
      destruct R as [A [B C]].
      simpl in *. repeat split; auto. lia.
Qed.

(** C9 (as amended): once [stopUpdate] has returned, and until the next
    [startUpdate], no timer fires any more, so no new read is issued; but a
    read in flight is not suppressed: its completion runs the rest of
    [_updateSpeed] on the indicator, baseline and label included, without
    any test.  At most as many updates follow as reads were in flight. *)
Theorem stop_leaves_reads_in_flight (es0 es : list event) (w w' : loop) :
  startsWhenIdle loop0 es0 = true ->
  run loop0 es0 = Some w ->
  existsb isStart es = false ->
  run (stopUpdate w) es = Some w' ->
  existsb isTimerFired es = false /\
  (List.length (filter isReadDone es) <= pending w)%nat /\
  sources w' = [] /\
  (forall contents n,
     pending w = S n ->
     step (stopUpdate w) (ReadDone contents)
     = Some (mkLoop (_updateSpeed (this (stopUpdate w))
                                  (_readNetworkStats contents))
                    [] (nextId w) n)).
Proof.
  intros D R NS R'.
  assert (tracked w) as T
    by (apply (tracked_run es0 loop0 w); auto using tracked_loop0).
  pose proof (tracked_stop w T) as S0.
  destruct (idle_run es (stopUpdate w) w' S0 (stopUpdate_timer w) NS R')
    as [A [B C]].
  rewrite stopUpdate_pending in B.
  repeat split; auto.
  intros contents n P. simpl.
  rewrite stopUpdate_pending, P, S0, stopUpdate_nextId. reflexivity.
Qed.

Lemma stop_leaves_reads_in_flight_witness :
  exists w',
    run (stopUpdate (startUpdate loop0))
        [ReadDone (Some sample_text); StopUpdate] = Some w' /\
    sources w' = [].
Proof.
  destruct (run (stopUpdate (startUpdate loop0))
                [ReadDone (Some sample_text); StopUpdate]) as [w'|] eqn:R;
    [|discriminate R].
  exists w'. split; [reflexivity|].
  destruct (stop_leaves_reads_in_flight
              [StartUpdate] [ReadDone (Some sample_text); StopUpdate]
              (startUpdate loop0) w' eq_refl eq_refl eq_refl R)
    as [_ [_ [C _]]].
  exact C.
Defined.

(** C9 fails as stated: the read issued by [startUpdate] completes after
    [stopUpdate] and rewrites the label and the stored totals. *)
Lemma read_in_flight_updates_after_stop :
  exists w w',
    run loop0 [StartUpdate; StopUpdate] = Some w /\
    sources w = [] /\ _updateTimer (this w) = None /\
    text (this w) = "↓ 0 B/s ↑ 0 B/s" /\
    _previousRxBytes (this w) = ofZ 0 /\
    step w (ReadDone (Some sample_text)) = Some w' /\
    text (this w') = "↓ 0.0 B/s ↑ 0.0 B/s" /\
    _previousRxBytes (this w') = ofZ 1000 /\
    _previousTxBytes (this w') = ofZ 2000.
Proof.
  eexists. eexists.
  split; [reflexivity|]. split; [reflexivity|]. split; [reflexivity|].
  split; [reflexivity|]. split; [reflexivity|].
  split; [reflexivity|]. repeat split; vm_compute; reflexivity.
Qed.

(** ** Strings *)

Lemma append_empty_r (s : string) : s ++ "" = s.
Proof. induction s as [|c s IH]; simpl; [|rewrite IH]; reflexivity. Qed.

Lemma append_assoc (a b c : string) : (a ++ b) ++ c = a ++ (b ++ c).
Proof. induction a as [|x a IH]; simpl; [|rewrite IH]; reflexivity. Qed.

Lemma isEmpty_append_r (a b : string) :
  isEmpty b = false -> isEmpty (a ++ b) = false.
Proof. destruct a; simpl; auto. Qed.

Lemma all_append (p : ascii -> bool) (a b : string) :
  all p (a ++ b) = all p a && all p b.
Proof.
  induction a as [|x a IH]; simpl; [reflexivity|].
  rewrite IH. apply andb_assoc.
Qed.

Lemma all_impl (p q : ascii -> bool) (s : string) :
  (forall c, p c = true -> q c = true) -> all p s = true -> all q s = true.
Proof.
  intros I. induction s as [|c s IH]; simpl; [reflexivity|].
  intros H. apply andb_true_iff in H. destruct H as [H1 H2].
  rewrite (I c H1), (IH H2). reflexivity.
Qed.

Lemma all_spaces (p : ascii -> bool) (n : nat) :
  p " "%char = true -> all p (Snapshot.spaces n) = true.
Proof. intros H. induction n; simpl; [|rewrite H, IHn]; reflexivity. Qed.

(** A decimal digit is neither white space, nor a colon, nor a sign. *)
Lemma isDigit_range (c : ascii) :
  isDigit c = true -> (48 <= nat_of_ascii c <= 57)%nat.
Proof.
  unfold isDigit, digit.
  destruct (Nat.leb_spec 48 (nat_of_ascii c)), (Nat.leb_spec (nat_of_ascii c) 57);
    simpl; intros E; try discriminate; lia.
Qed.

Lemma isDigit_not_ws (c : ascii) : isDigit c = true -> isWs c = false.
Proof.
  intros H. apply isDigit_range in H. unfold isWs.
  apply orb_false_iff. split.
  - apply Nat.eqb_neq. lia.
  - apply andb_false_iff. right. apply Nat.leb_gt. lia.
Qed.

Lemma isDigit_not (c d : ascii) :
  (nat_of_ascii d < 48)%nat \/ (57 < nat_of_ascii d)%nat ->
  isDigit c = true -> Ascii.eqb c d = false.
Proof.
  intros R H. apply isDigit_range in H.
  apply Ascii.eqb_neq. intros ->. lia.
Qed.

Lemma split_sep (c : ascii) (a b : string) :
  all (fun x => negb (Ascii.eqb x c)) a = true ->
  split c (a ++ String c b) = a :: split c b.
Proof.
  induction a as [|x a IH]; simpl; intros H.
  - rewrite Ascii.eqb_refl. reflexivity.
  - apply andb_true_iff in H. destruct H as [H1 H2].
    apply negb_true_iff in H1. rewrite H1, (IH H2). reflexivity.
Qed.

Lemma split_whole (c : ascii) (a : string) :
  all (fun x => negb (Ascii.eqb x c)) a = true -> split c a = [a].
Proof.
  induction a as [|x a IH]; simpl; intros H; [reflexivity|].
  apply andb_true_iff in H. destruct H as [H1 H2].
  apply negb_true_iff in H1. rewrite H1, (IH H2). reflexivity.
Qed.

Lemma trimStart_spaces (n : nat) (s : string) :
  trimStart (Snapshot.spaces n ++ s) = trimStart s.
Proof. induction n; simpl; auto. Qed.

Lemma trimStart_keep (c : ascii) (s : string) :
  isWs c = false -> trimStart (String c s) = String c s.
Proof. intros H. simpl. rewrite H. reflexivity. Qed.

Lemma trimEnd_keep (a b : string) :
  trimEnd b = b -> isEmpty b = false -> trimEnd (a ++ b) = a ++ b.
Proof.
  intros E N. induction a as [|x a IH]; simpl; [exact E|].
  rewrite IH, (isEmpty_append_r a b N), andb_false_r. reflexivity.
Qed.

Lemma trimEnd_solid (a b : string) :
  all (fun c => negb (isWs c)) a = true ->
  trimEnd b = b -> trimEnd (a ++ b) = a ++ b.
Proof.
  intros H E. induction a as [|x a IH]; simpl; [exact E|].
  simpl in H. apply andb_true_iff in H. destruct H as [H1 H2].
  apply negb_true_iff in H1. rewrite (IH H2), H1. reflexivity.
Qed.

Lemma splitWsFrom_cons (b : bool) (s : string) :
  exists t ts, splitWsFrom b s = t :: ts.
Proof.
  revert b. induction s as [|x s IH]; intros b; simpl; [eauto|].
  destruct (isWs x).
  - destruct b; eauto.
  - destruct (IH false) as [t [ts E]]. rewrite E. eauto.
Qed.

Lemma splitWsFrom_solid (t s : string) :
  all (fun c => negb (isWs c)) t = true ->
  splitWsFrom false (t ++ s)
  = match splitWsFrom false s with
    | x :: xs => (t ++ x) :: xs
    | [] => [t]
    end.
Proof.
  induction t as [|c t IH]; simpl; intros H.
  - destruct (splitWsFrom_cons false s) as [x [xs E]]. rewrite E. reflexivity.
  - apply andb_true_iff in H. destruct H as [H1 H2].
    apply negb_true_iff in H1. rewrite H1, (IH H2).
    destruct (splitWsFrom_cons false s) as [x [xs E]]. rewrite E. reflexivity.
Qed.

Lemma splitWsFrom_spaces (n : nat) (s : string) :
  splitWsFrom true (Snapshot.spaces n ++ s) = splitWsFrom true s.
Proof. induction n; simpl; auto. Qed.

Lemma splitWsFrom_start (b : bool) (c : ascii) (s : string) :
  isWs c = false ->
  splitWsFrom b (String c s) = splitWsFrom false (String c s).
Proof. intros H. simpl. rewrite H. reflexivity. Qed.

(** ** [parseInt] reads back what [decimal] writes *)

Lemma digits_of_uint_acc (d : Decimal.uint) (acc : positive) :
  digits (Zpos acc) (NilEmpty.string_of_uint d)
  = Zpos (Pos.of_uint_acc d acc).
Proof.
  revert acc.
  induction d; intros acc;
    cbn [NilEmpty.string_of_uint digits Pos.of_uint_acc];
    try reflexivity;
    match goal with
    | |- context [digit ?c] =>
        let v := eval vm_compute in (digit c) in change (digit c) with v
    end;
    cbv iota; rewrite <- IHd; f_equal; lia.
Qed.

Lemma digits_of_uint (d : Decimal.uint) :
  digits 0 (NilEmpty.string_of_uint d) = Z.of_N (Pos.of_uint d).
Proof.
  induction d; simpl; try reflexivity; try exact IHd;
    apply digits_of_uint_acc.
Qed.

Lemma digits_decimal (n : N) : digits 0 (decimal n) = Z.of_N n.
Proof.
  rewrite <- (DecimalN.Unsigned.of_to n) at 2.
  unfold decimal, NilZero.string_of_uint, N.of_uint.
  destruct (N.to_uint n); [reflexivity | ..]; apply digits_of_uint.
Qed.

Lemma decimal_head (n : N) :
  exists c s, decimal n = String c s /\ isDigit c = true.
Proof.
  pose proof (decimal_nonempty n) as N. pose proof (decimal_digits n) as D.
  destruct (decimal n) as [|c s]; [discriminate|].
  simpl in D. apply andb_true_iff in D. destruct D as [D _]. eauto.
Qed.

Lemma parseInt_decimal (n : N) : parseInt (decimal n) = ofZ (Z.of_N n).
Proof.
  pose proof (digits_decimal n) as V.
  destruct (decimal_head n) as [c [s [E D]]]. rewrite E in *.
  unfold parseInt. rewrite (trimStart_keep c s (isDigit_not_ws c D)).
  assert (Ascii.eqb c "-" = false) as M
    by (apply isDigit_not; [left; apply Nat.ltb_lt; reflexivity | exact D]).
  assert (Ascii.eqb c "+" = false) as P
    by (apply isDigit_not; [left; apply Nat.ltb_lt; reflexivity | exact D]).
  destruct (Ascii.eqb_spec c "-") as [->|_]; [discriminate|].
  destruct (Ascii.eqb_spec c "+") as [->|_]; [discriminate|].
  assert ((let '(sign, body) :=
             match String c s with
             | String "-" r => ((-1)%Z, r)
             | String "+" r => (1%Z, r)
             | _ => (1%Z, String c s)
             end in
           if startsWithDigit body then ofZ (sign * digits 0 body) else NaN)
          = (if startsWithDigit (String c s)
             then ofZ (1 * digits 0 (String c s)) else NaN)) as R.
  { destruct c as [[] [] [] [] [] [] [] []]; try reflexivity;
      discriminate. }
  rewrite R. simpl startsWithDigit. rewrite D, V.
  f_equal. lia.
Qed.

(** ** Rows of a well-formed snapshot *)

Section Rows.

Import Snapshot.

Lemma decimal_solid (n : N) : all (fun c => negb (isWs c)) (decimal n) = true.
Proof.
  apply (all_impl isDigit); [|apply decimal_digits].
  intros c D. rewrite (isDigit_not_ws c D). reflexivity.
Qed.

Lemma decimal_no (d : ascii) (n : N) :
  (nat_of_ascii d < 48)%nat \/ (57 < nat_of_ascii d)%nat ->
  all (fun c => negb (Ascii.eqb c d)) (decimal n) = true.
Proof.
  intros R. apply (all_impl isDigit); [|apply decimal_digits].
  intros c D. rewrite (isDigit_not c d R D). reflexivity.
Qed.

Lemma renderCounters_no (d : ascii) (cs : list (nat * N)) :
  (nat_of_ascii d < 48)%nat \/ (57 < nat_of_ascii d)%nat ->
  Ascii.eqb " " d = false ->
  all (fun c => negb (Ascii.eqb c d)) (renderCounters cs) = true.
Proof.
  intros R S. induction cs as [|[pad v] cs IH]; [reflexivity|].
  cbn [renderCounters all]. rewrite S, !all_append, IH.
  rewrite all_spaces by (rewrite S; reflexivity).
  rewrite (decimal_no d v R). reflexivity.
Qed.

Lemma trimEnd_renderCounters (cs : list (nat * N)) :
  trimEnd (renderCounters cs) = renderCounters cs.
Proof.
  induction cs as [|[pad v] cs IH]; [reflexivity|].
  cbn [renderCounters].
  change (String " " (spaces pad ++ decimal v ++ renderCounters cs))
    with (String " " (spaces pad) ++ (decimal v ++ renderCounters cs)).
  apply trimEnd_keep.
  - apply trimEnd_solid; [apply decimal_solid | exact IH].
  - destruct (decimal_head v) as [c [s [E _]]]. rewrite E. reflexivity.
Qed.

Lemma splitWs_renderCounters (cs : list (nat * N)) :
  splitWsFrom false (renderCounters cs)
  = EmptyString :: map decimal (map snd cs).
Proof.
  induction cs as [|[pad v] cs IH]; [reflexivity|].
  cbn [renderCounters map snd].
  change (splitWsFrom false
            (String " " (spaces pad ++ decimal v ++ renderCounters cs)))
    with (EmptyString ::
          splitWsFrom true (spaces pad ++ decimal v ++ renderCounters cs)).
  rewrite splitWsFrom_spaces.
  destruct (decimal_head v) as [c [s [E D]]].
  rewrite E at 1. cbn [append].
  rewrite splitWsFrom_start by (apply isDigit_not_ws; exact D).
  change (String c (s ++ renderCounters cs))
    with (String c s ++ renderCounters cs).
  rewrite <- E.
  rewrite (splitWsFrom_solid _ _ (decimal_solid v)), IH.
  rewrite append_empty_r. reflexivity.
Qed.

(** The fields of the data part of a row are its counters in decimal. *)
Lemma fields_renderCounters (cs : list (nat * N)) :
  cs <> [] ->
  splitWs (trim (renderCounters cs)) = map decimal (map snd cs).
Proof.
  destruct cs as [|[pad v] cs]; [congruence|]. intros _.
  unfold trim.
  assert (trimStart (renderCounters ((pad, v) :: cs))
          = decimal v ++ renderCounters cs) as E.
  { cbn [renderCounters trimStart].
    change (isWs " ") with true. cbv iota.
    rewrite trimStart_spaces.
    destruct (decimal_head v) as [c [s [E D]]]. rewrite E. cbn [append].
    apply trimStart_keep, isDigit_not_ws, D. }
  rewrite E.
  rewrite (trimEnd_solid _ _ (decimal_solid v) (trimEnd_renderCounters cs)).
  unfold splitWs.
  rewrite (splitWsFrom_solid _ _ (decimal_solid v)).
  rewrite splitWs_renderCounters, append_empty_r. reflexivity.
Qed.

Lemma element_counters (i : nat) (cs : list (nat * N)) :
  (i < List.length cs)%nat ->
  element i (map parseInt (map decimal (map snd cs)))
  = ofZ (Z.of_N (nth i (map snd cs) 0%N)).
Proof.
  intros L. unfold element.
  rewrite (nth_indep _ NaN (parseInt (decimal 0)))
    by (rewrite !length_map; exact L).
  rewrite (map_nth parseInt), (map_nth decimal).
  apply parseInt_decimal.
Qed.

Variable r : row.
Hypothesis ok : rowOk r = true.

Lemma row_name : nameOk (name r) = true.
Proof. unfold rowOk in ok. apply andb_true_iff in ok. tauto. Qed.

Lemma row_columns : (9 <= List.length (counters r))%nat.
Proof.
  unfold rowOk in ok. apply andb_true_iff in ok.
  apply Nat.leb_le. tauto.
Qed.

Lemma name_chars :
  exists c s, name r = String c s /\ isWs c = false /\
              all (fun c => negb (isWs c)) (name r) = true /\ all (fun c => negb (Ascii.eqb c ":")) (name r) = true.
Proof.
  pose proof row_name as H. unfold nameOk in H.
  apply andb_true_iff in H. destruct H as [H1 H2].
  assert (all (fun c => negb (isWs c)) (name r) = true) as A
    by (revert H2; apply all_impl; intros c H;
        apply andb_true_iff in H; tauto).
  assert (all (fun c => negb (Ascii.eqb c ":")) (name r) = true) as B
    by (revert H2; apply all_impl; intros c H;
        apply andb_true_iff in H; tauto).
  destruct (name r) as [|c s]; [discriminate|].
  exists c, s. repeat split; auto.
  simpl in A. apply andb_true_iff in A. destruct A as [A _].
  apply negb_true_iff. exact A.
Qed.

Lemma trim_renderRow :
  trim (renderRow r) = name r ++ String ":" (renderCounters (counters r)).
Proof.
  destruct name_chars as [c [s [E [W [A _]]]]].
  unfold trim, renderRow. rewrite trimStart_spaces.
  assert (trimStart (name r ++ String ":" (renderCounters (counters r)))
          = name r ++ String ":" (renderCounters (counters r))) as T
    by (rewrite E; cbn [append]; apply trimStart_keep, W).
  rewrite T.
  apply trimEnd_keep; [|reflexivity].
  change (String ":" (renderCounters (counters r)))
    with (String ":" EmptyString ++ renderCounters (counters r)).
  apply trimEnd_solid; [reflexivity | apply trimEnd_renderCounters].
Qed.

Lemma split_renderRow :
  split ":" (trim (renderRow r))
  = [name r; renderCounters (counters r)].
Proof.
  destruct name_chars as [_ [_ [_ [_ [_ B]]]]].
  rewrite trim_renderRow, (split_sep ":" _ _ B).
  rewrite split_whole; [reflexivity|].
  apply renderCounters_no; [right; apply Nat.ltb_lt|]; reflexivity.
Qed.

Lemma candidate_renderRow :
  candidate (renderRow r)
  = if _isIgnoredInterface (name r) then None
    else Some (map decimal (map snd (counters r))).
Proof.
  pose proof row_columns as L.
  unfold candidate. rewrite split_renderRow, trim_renderRow.
  destruct name_chars as [c [s [E _]]].
  replace (isEmpty (name r ++ String ":" (renderCounters (counters r))))
    with false by (rewrite E; reflexivity).
  destruct (counters r) as [|[pad v] cs] eqn:C; [simpl in L; lia|].
  cbn [renderCounters isEmpty orb].
  destruct (_isIgnoredInterface (name r)); [reflexivity|].
  rewrite <- C.
  change (String " " (spaces pad ++ decimal v ++ renderCounters cs))
    with (renderCounters ((pad, v) :: cs)).
  rewrite <- C. rewrite fields_renderCounters; [reflexivity|].
  rewrite C. discriminate.
Qed.

(** What a row adds: nothing when its interface is ignored, its first and
    ninth counters otherwise. *)
Lemma lineBytes_renderRow :
  lineBytes (renderRow r)
  = if _isIgnoredInterface (name r) then None
    else Some (ofZ (Z.of_N (rxOf r)), ofZ (Z.of_N (txOf r))).
Proof.
  pose proof row_columns as L.
  unfold lineBytes. rewrite candidate_renderRow.
  destruct (_isIgnoredInterface (name r)); [reflexivity|].
  rewrite !element_counters by lia. reflexivity.
Qed.

Lemma renderRow_one_line : all (fun c => negb (Ascii.eqb c LF)) (renderRow r) = true.
Proof.
  destruct name_chars as [_ [_ [_ [_ [A _]]]]].
  assert (all (fun c => negb (Ascii.eqb c LF)) (name r) = true) as B.
  { revert A. apply all_impl. intros c S.
    destruct (Ascii.eqb_spec c LF) as [->|]; [discriminate S | reflexivity]. }
  assert (all (fun c => negb (Ascii.eqb c LF)) (renderCounters (counters r)) = true) as C
    by (apply renderCounters_no;
        [left; apply Nat.ltb_lt; reflexivity | reflexivity]).
  unfold renderRow. rewrite !all_append.
  rewrite all_spaces by reflexivity.
  cbn [all]. rewrite B, C. reflexivity.
Qed.

End Rows.

(** ** Whole snapshots *)

Lemma split_renderRows (rs : list Snapshot.row) :
  forallb Snapshot.rowOk rs = true ->
  split LF (Snapshot.renderRows rs)
  = (map Snapshot.renderRow rs ++ [EmptyString])%list.
Proof.
  induction rs as [|r rs IH]; intros H; [reflexivity|].
  simpl in H. apply andb_true_iff in H. destruct H as [H1 H2].
  cbn [Snapshot.renderRows map app].
  rewrite (split_sep LF _ _ (renderRow_one_line r H1)), (IH H2).
  reflexivity.
Qed.

Lemma lines_render (h1 h2 : string) (rs : list Snapshot.row) :
  Snapshot.headerOk h1 = true -> Snapshot.headerOk h2 = true ->
  forallb Snapshot.rowOk rs = true ->
  skipn 2 (split LF (Snapshot.render h1 h2 rs))
  = (map Snapshot.renderRow rs ++ [EmptyString])%list.
Proof.
  intros H1 H2 R. unfold Snapshot.render.
  rewrite (split_sep LF _ _ H1), (split_sep LF _ _ H2).
  cbn [skipn]. apply split_renderRows, R.
Qed.

Lemma total_app (f : Snapshot.row -> N) (a b : list Snapshot.row) :
  Snapshot.total f (a ++ b)%list = (Snapshot.total f a + Snapshot.total f b)%N.
Proof.
  induction a as [|r a IH]; simpl; [reflexivity|].
  destruct (_isIgnoredInterface (Snapshot.name r)); rewrite IH; lia.
Qed.

Lemma fold_rows (rs : list Snapshot.row) (a b : Q) :
  forallb Snapshot.rowOk rs = true ->
  exists a' b',
    fold_left addLine (map Snapshot.renderRow rs) (mkStats (Fin a) (Fin b))
    = mkStats (Fin a') (Fin b') /\
    (a' == a + inject_Z (Z.of_N (Snapshot.total Snapshot.rxOf rs)))%Q /\
    (b' == b + inject_Z (Z.of_N (Snapshot.total Snapshot.txOf rs)))%Q.
Proof.
  revert a b. induction rs as [|r rs IH]; intros a b H.
  - exists a, b. simpl. repeat split; ring.
  - simpl in H. apply andb_true_iff in H. destruct H as [H1 H2].
    cbn [map fold_left Snapshot.total]. unfold addLine at 2.
    rewrite (lineBytes_renderRow r H1).
    destruct (_isIgnoredInterface (Snapshot.name r)).
    + apply IH, H2.
    + cbn [totalRxBytes totalTxBytes add ofZ].
      destruct (IH (a + inject_Z (Z.of_N (Snapshot.rxOf r)))%Q
                   (b + inject_Z (Z.of_N (Snapshot.txOf r)))%Q H2)
        as [a' [b' [E [Ea Eb]]]].
      exists a', b'. split; [exact E|].
      rewrite Ea, Eb, !N2Z.inj_add, !inject_Z_plus. split; ring.
Qed.

(** C7: in a well-formed snapshot with ASCII interface names, an interface
    whose name starts with [lo], [vir], [vbox], [docker] or [br-] adds
    nothing whatever its counters are: the totals are those of the snapshot
    without it; the totals are the sums of the first and ninth counters of
    the interfaces not ignored, as long as these sums are integers a double
    holds. *)
Theorem ignored_interfaces_add_nothing
  (h1 h2 : string) (before after : list Snapshot.row) (r : Snapshot.row) :
  Snapshot.headerOk h1 = true -> Snapshot.headerOk h2 = true ->
  forallb Snapshot.rowOk (before ++ r :: after)%list = true ->
  forallb (fun x => all isAscii (Snapshot.name x)) (before ++ r :: after)%list
  = true ->
  ((Snapshot.total Snapshot.rxOf (before ++ r :: after)%list <= 2 ^ 53)%N ->
   (Snapshot.total Snapshot.txOf (before ++ r :: after)%list <= 2 ^ 53)%N ->
   sameStats
     (parseStats (Snapshot.render h1 h2 (before ++ r :: after)%list))
     (mkStats
        (ofZ (Z.of_N
                (Snapshot.total Snapshot.rxOf (before ++ r :: after)%list)))
        (ofZ (Z.of_N
                (Snapshot.total Snapshot.txOf (before ++ r :: after)%list)))))
  /\
  (_isIgnoredInterface (Snapshot.name r) = true <->
   exists prefix,
     In prefix ["lo"; "vir"; "vbox"; "docker"; "br-"] /\
     String.prefix prefix (Snapshot.name r) = true) /\
  (_isIgnoredInterface (Snapshot.name r) = true ->
   sameStats
     (parseStats (Snapshot.render h1 h2 (before ++ r :: after)%list))
     (parseStats (Snapshot.render h1 h2 (before ++ after)%list))) /\
  (_isIgnoredInterface (Snapshot.name r) = false ->
   (Snapshot.total Snapshot.rxOf (before ++ r :: after)%list
    = Snapshot.total Snapshot.rxOf (before ++ after)%list + Snapshot.rxOf r)%N /\
   (Snapshot.total Snapshot.txOf (before ++ r :: after)%list
    = Snapshot.total Snapshot.txOf (before ++ after)%list + Snapshot.txOf r)%N).
Proof.
  intros H1 H2 R _.
  assert (forall rs, forallb Snapshot.rowOk rs = true ->
            sameStats
              (parseStats (Snapshot.render h1 h2 rs))
              (mkStats (ofZ (Z.of_N (Snapshot.total Snapshot.rxOf rs)))
                       (ofZ (Z.of_N (Snapshot.total Snapshot.txOf rs)))))
    as Sum.
  { intros rs Ok. unfold parseStats.
    rewrite (lines_render h1 h2 rs H1 H2 Ok), fold_left_app.
    destruct (fold_rows rs 0 0 Ok) as [a' [b' [E [Ea Eb]]]].
    unfold ofZ at 1 2. change (inject_Z 0) with 0%Q.
    rewrite E. cbn [fold_left]. unfold addLine. cbn.
    split; cbn; [rewrite Ea | rewrite Eb]; ring. }
  assert (forallb Snapshot.rowOk (before ++ after)%list = true) as R'.
  { rewrite forallb_app in *. cbn [forallb] in R.
    apply andb_true_iff in R. destruct R as [Ra Rb].
    apply andb_true_iff in Rb. rewrite Ra. tauto. }
  split; [intros _ _; apply Sum, R|].
  split; [apply existsb_exists|].
  split.
  - intros I.
    destruct (Sum _ R) as [A1 A2]. destruct (Sum _ R') as [B1 B2].
    rewrite !total_app in A1, A2. rewrite !total_app in B1, B2.
    cbn [Snapshot.total] in A1, A2. rewrite I in A1, A2.
    split; (eapply same_trans; [eassumption | apply same_sym; assumption]).
  - intros I. rewrite !total_app. cbn [Snapshot.total]. rewrite I.
    split; lia.
Qed.

Lemma ignored_interfaces_add_nothing_witness :
  sameStats
    (parseStats (Snapshot.render "Inter-|" " face |" ([] ++ lo_row :: [eth0_row])%list))
    (mkStats (ofZ 1000) (ofZ 2000)).
Proof.
  destruct (ignored_interfaces_add_nothing
              "Inter-|" " face |" [] [eth0_row] lo_row
              eq_refl eq_refl eq_refl eq_refl) as [S _].
  apply S; discriminate.
Defined.

(** ** Lines that are not well formed *)

Lemma element_parsed (i : nat) (fields : list string) :
  element i (map parseInt fields) = parseInt (nth i fields EmptyString).
Proof.
  unfold element. change NaN with (parseInt EmptyString). apply map_nth.
Qed.







(** ** Worked examples *)

Example parse_sample :
  parseStats sample_text = mkStats (ofZ 1000) (ofZ 2000).
Proof. vm_compute. reflexivity. Qed.

Example format_negative :
  _formatSpeedValue (Fin (-(100 # 3))%Q) = "-33.3 B/s".
Proof. vm_compute. reflexivity. Qed.

Example format_beyond_giga :
  _formatSpeedValue (ofZ (5 * 1024 * 1024 * 1024 * 1024)) = "5120.0 GB/s".
Proof. vm_compute. reflexivity. Qed.

(** The scenario of the specification: previous totals 100 and 200, then
    the sample snapshot three seconds later. *)
Example scenario :
  option_map (fun w => text (this w))
    (run (mkLoop (mkIndicator "" (ofZ 100) (ofZ 200) (Some 1%positive))
                 [1%positive] 2%positive 0)
         [TimerFired 1%positive; ReadDone (Some sample_text)])
  = Some "↓ 300.0 B/s ↑ 600.0 B/s".
Proof. vm_compute. reflexivity. Qed.

(** * Further properties *)

(** ** Scaling and rounding of the formatter *)

Lemma Qfloor_between (x : Q) (n : Z) :
  (inject_Z n <= x)%Q -> (x < inject_Z (n + 1))%Q -> Qfloor x = n.
Proof.
  intros L U.
  pose proof (Qfloor_le x) as F1. pose proof (Qlt_floor x) as F2.
  assert (n < Qfloor x + 1)%Z as A
    by (rewrite Zlt_Qlt; eapply Qle_lt_trans; eassumption).
  assert (Qfloor x < n + 1)%Z as B
    by (rewrite Zlt_Qlt; eapply Qle_lt_trans; eassumption).
  lia.
Qed.

(** X1: the loop of the formatter keeps the value: the number it leaves
    times [1024^unitIndex] is the number it was given; below GB/s that
    number is under 1024, and once a larger unit than B/s is chosen it is at
    least 1. *)
Theorem scale_keeps_value (b : Q) :
  exists (s : Q) (i : nat),
    scale (List.length units - 1) (Fin b) 0 = (Fin s, i) /\
    (i <= 3)%nat /\
    (s * inject_Z (1024 ^ Z.of_nat i) == b)%Q /\
    ((i < 3)%nat -> (s < 1024)%Q) /\
    ((0 < i)%nat -> (1 <= s)%Q).
Proof.
  cbn [List.length units Nat.sub scale divc]. unfold ofZ.
  destruct (Qlt_le_dec b 1024) as [H1|H1].
  { rewrite (proj2 (geb_lt b (inject_Z 1024))) by exact H1.
    exists b, 0%nat. split; [reflexivity|]. split; [lia|].
    split; [cbn; ring|]. split; [intros _; exact H1 | lia]. }
  rewrite (proj2 (geb_le b (inject_Z 1024))) by exact H1. cbn [andb Nat.ltb Nat.leb].
  assert (1 <= b / inject_Z 1024)%Q as G1
    by (apply Qle_shift_div_l; [reflexivity|]; unfold inject_Z; lra).
  destruct (Qlt_le_dec b (1024 * 1024)) as [H2|H2].
  { rewrite (proj2 (geb_lt (b / inject_Z 1024) (inject_Z 1024)))
      by (apply Qlt_shift_div_r; [reflexivity|]; unfold inject_Z; lra).
    exists (b / inject_Z 1024)%Q, 1%nat. split; [reflexivity|].
    split; [lia|]. split; [cbn; field|].
    split; [intros _|intros _; exact G1].
    apply Qlt_shift_div_r; [reflexivity|]. unfold inject_Z. lra. }
  assert (inject_Z 1024 <= b / inject_Z 1024)%Q as G2
    by (apply Qle_shift_div_l; [reflexivity|]; unfold inject_Z; lra).
  rewrite (proj2 (geb_le (b / inject_Z 1024) (inject_Z 1024))) by exact G2.
  cbn [andb Nat.ltb Nat.leb].
  assert (1 <= b / inject_Z 1024 / inject_Z 1024)%Q as G3
    by (apply Qle_shift_div_l; [reflexivity|]; unfold inject_Z in *; lra).
  destruct (Qlt_le_dec b (1024 * 1024 * 1024)) as [H3|H3].
  { rewrite (proj2 (geb_lt (b / inject_Z 1024 / inject_Z 1024) (inject_Z 1024)))
      by (apply Qlt_shift_div_r; [reflexivity|];
          apply Qlt_shift_div_r; [reflexivity|]; unfold inject_Z; lra).
    exists (b / inject_Z 1024 / inject_Z 1024)%Q, 2%nat.
    split; [reflexivity|]. split; [lia|]. split; [cbn; field|].
    split; [intros _|intros _; exact G3].
    apply Qlt_shift_div_r; [reflexivity|].
    apply Qlt_shift_div_r; [reflexivity|]. unfold inject_Z. lra. }
  assert (inject_Z 1024 <= b / inject_Z 1024 / inject_Z 1024)%Q as G4
    by (apply Qle_shift_div_l; [reflexivity|];
        apply Qle_shift_div_l; [reflexivity|]; unfold inject_Z; lra).
  rewrite (proj2 (geb_le (b / inject_Z 1024 / inject_Z 1024) (inject_Z 1024)))
    by exact G4.
  cbn [andb Nat.ltb Nat.leb].
  exists (b / inject_Z 1024 / inject_Z 1024 / inject_Z 1024)%Q, 3%nat.
  split; [reflexivity|]. split; [lia|]. split; [cbn; field|].
  split; [lia|intros _].
  apply Qle_shift_div_l; [reflexivity|]. unfold inject_Z in *. lra.
Qed.

Lemma toFixed1_abs_value (a : Q) :
  (0 <= a)%Q ->
  exists (w d : N),
    toFixed1_abs a = decimal w ++ "." ++ decimal d /\
    (d < 10)%N /\
    (Qabs (a - (inject_Z (Z.of_N w) + inject_Z (Z.of_N d) / 10)) <= 1 # 20)%Q.
Proof.
  intros P. unfold toFixed1_abs.
  set (n := Qfloor (a * 10 + (1 # 2))).
  assert (0 <= n)%Z as N0.
  { unfold n. change 0%Z with (Qfloor 0). apply Qfloor_resp_le. lra. }
  pose proof (Qfloor_le (a * 10 + (1 # 2))) as F1.
  pose proof (Qlt_floor (a * 10 + (1 # 2))) as F2.
  fold n in F1, F2.
  pose proof (Z.mod_pos_bound n 10 eq_refl) as M.
  pose proof (Z.div_pos n 10 N0 eq_refl) as D.
  exists (Z.to_N (n / 10)), (Z.to_N (n mod 10)).
  split; [reflexivity|]. split; [lia|].
  rewrite !Z2N.id by lia.
  assert (inject_Z (n / 10) + inject_Z (n mod 10) / 10
          == inject_Z n * (1 # 10))%Q as V.
  { rewrite (Z.div_mod n 10) at 3 by discriminate.
    rewrite inject_Z_plus, inject_Z_mult. change (inject_Z 10) with 10%Q.
    field. }
  rewrite V. rewrite inject_Z_plus in F2. change (inject_Z 1) with 1%Q in F2.
  apply Qabs_case; intros _; lra.
Qed.

Lemma toFixed1_value (q : Q) :
  exists (w d : N),
    toFixed1 (Fin q)
    = (if Qle_bool 0 q then "" else "-") ++ decimal w ++ "." ++ decimal d /\
    (d < 10)%N /\
    (Qabs (Qabs q - (inject_Z (Z.of_N w) + inject_Z (Z.of_N d) / 10))
     <= 1 # 20)%Q.
Proof.
  unfold toFixed1. destruct (Qle_bool 0 q) eqn:S.
  - apply Qle_bool_iff in S.
    destruct (toFixed1_abs_value q S) as [w [d [E [B A]]]].
    exists w, d. rewrite E. split; [reflexivity|]. split; [exact B|].
    rewrite (Qabs_pos q S). exact A.
  - destruct (toFixed1_abs_value (Qabs q) (Qabs_nonneg q))
      as [w [d [E [B A]]]].
    exists w, d. rewrite E. split; [reflexivity|]. split; assumption.
Qed.

Lemma shown_value (b s : Q) (unit : string) (i : nat) :
  _formatSpeedValue (Fin b) = toFixed1 (Fin s) ++ " " ++ unit ->
  Qle_bool 0 s = Qle_bool 0 b ->
  (Qabs s == Qabs b / inject_Z (1024 ^ Z.of_nat i))%Q ->
  exists (w d : N),
    _formatSpeedValue (Fin b)
    = ((if Qle_bool 0 b then "" else "-") ++ decimal w ++ "." ++ decimal d)
      ++ " " ++ unit /\
    (d < 10)%N /\
    (Qabs (Qabs b / inject_Z (1024 ^ Z.of_nat i)
           - (inject_Z (Z.of_N w) + inject_Z (Z.of_N d) / 10))
     <= 1 # 20)%Q.
Proof.
  intros F S A.
  destruct (toFixed1_value s) as [w [d [E [B V]]]].
  exists w, d. rewrite F, E, S. split; [reflexivity|]. split; [exact B|].
  rewrite <- A. exact V.
Qed.

(** X2: the number [_formatSpeedValue] shows is within 0.05 of the value
    divided by [1024^i], where [i] is the place of the unit shown: the text
    is an optional minus sign, the digits of [w], a point, the digit [d], a
    space and the unit, with [| |b| / 1024^i - (w + d/10) | <= 1/20].  The
    bound on [b] is the range in which [toFixed] uses fixed notation. *)
Theorem displayed_value_within_half_tenth (b : Q) :
  (Qabs b < inject_Z (10 ^ 21))%Q ->
  exists (i : nat) (w d : N),
    (i <= 3)%nat /\
    _formatSpeedValue (Fin b)
    = ((if Qle_bool 0 b then "" else "-") ++ decimal w ++ "." ++ decimal d)
      ++ " " ++ nth i units "" /\
    (d < 10)%N /\
    (Qabs (Qabs b / inject_Z (1024 ^ Z.of_nat i)
           - (inject_Z (Z.of_N w) + inject_Z (Z.of_N d) / 10))
     <= 1 # 20)%Q.
Proof.
  intros _.
  assert (forall s : Q, (0 <= s)%Q -> Qle_bool 0 s = true) as Pos
    by (intros s H; apply Qle_bool_iff; exact H).
  destruct (Qlt_le_dec b 1024) as [H1|H1].
  { destruct (shown_value b b "B/s" 0 (format_bytes b H1) eq_refl)
      as [w [d R]].
    - change (inject_Z (1024 ^ Z.of_nat 0)) with 1%Q. field.
    - exists 0%nat, w, d. split; [lia | exact R]. }
  assert (0 <= b)%Q as B0 by lra.
  destruct (Qlt_le_dec b (1024 * 1024)) as [H2|H2].
  { assert (0 <= b / 1024)%Q as S0
      by (apply Qle_shift_div_l; [reflexivity|]; lra).
    destruct (shown_value b (b / 1024) "KB/s" 1 (format_kilo b H1 H2))
      as [w [d R]].
    - rewrite (Pos _ S0), (Pos _ B0). reflexivity.
    - rewrite (Qabs_pos _ S0), (Qabs_pos _ B0). reflexivity.
    - exists 1%nat, w, d. split; [lia | exact R]. }
  destruct (Qlt_le_dec b (1024 * 1024 * 1024)) as [H3|H3].
  { assert (0 <= b / 1024 / 1024)%Q as S0
      by (apply Qle_shift_div_l; [reflexivity|];
          apply Qle_shift_div_l; [reflexivity|]; lra).
    destruct (shown_value b (b / 1024 / 1024) "MB/s" 2 (format_mega b H2 H3))
      as [w [d R]].
    - rewrite (Pos _ S0), (Pos _ B0). reflexivity.
    - rewrite (Qabs_pos _ S0), (Qabs_pos _ B0).
      change (inject_Z (1024 ^ Z.of_nat 2)) with (1024 * 1024)%Q. field.
    - exists 2%nat, w, d. split; [lia | exact R]. }
  assert (0 <= b / 1024 / 1024 / 1024)%Q as S0
    by (apply Qle_shift_div_l; [reflexivity|];
        apply Qle_shift_div_l; [reflexivity|];
        apply Qle_shift_div_l; [reflexivity|]; lra).
  destruct (shown_value b (b / 1024 / 1024 / 1024) "GB/s" 3
                        (format_giga b H3)) as [w [d R]].
  - rewrite (Pos _ S0), (Pos _ B0). reflexivity.
  - rewrite (Qabs_pos _ S0), (Qabs_pos _ B0).
    change (inject_Z (1024 ^ Z.of_nat 3)) with (1024 * 1024 * 1024)%Q. field.
  - exists 3%nat, w, d. split; [lia | exact R].
Qed.

Lemma displayed_value_within_half_tenth_witness :
  exists (i : nat) (w d : N),
    (i <= 3)%nat /\
    _formatSpeedValue (Fin 1536)
    = ("" ++ decimal w ++ "." ++ decimal d) ++ " " ++ nth i units "".
Proof.
  destruct (displayed_value_within_half_tenth 1536 eq_refl)
    as [i [w [d [I [E _]]]]].
  exists i, w, d. split; [exact I | exact E].
Defined.

Lemma toFixed1_1024 (x : Q) :
  ((20479 # 20) <= x)%Q -> (x < 1024)%Q -> toFixed1 (Fin x) = "1024.0".
Proof.
  intros L U. unfold toFixed1.
  replace (Qle_bool 0 x) with true by (symmetry; apply Qle_bool_iff; lra).
  unfold toFixed1_abs.
  rewrite (Qfloor_between (x * 10 + (1 # 2)) 10240); [reflexivity | |].
  - change (inject_Z 10240) with 10240%Q. lra.
  - change (inject_Z (10240 + 1)) with 10241%Q. lra.
Qed.

(** X3: rounding comes after the choice of the unit, so a value just under
    the next unit is shown as 1024.0 of the smaller one: from 1023.95 up to
    1024 (of B/s, KB/s or MB/s) the label reads [1024.0]. *)
Theorem value_just_below_next_unit_shows_1024 (b : Q) :
  (((20479 # 20) <= b)%Q -> (b < 1024)%Q ->
   _formatSpeedValue (Fin b) = "1024.0 B/s") /\
  (((20479 # 20) * 1024 <= b)%Q -> (b < 1024 * 1024)%Q ->
   _formatSpeedValue (Fin b) = "1024.0 KB/s") /\
  (((20479 # 20) * 1024 * 1024 <= b)%Q -> (b < 1024 * 1024 * 1024)%Q ->
   _formatSpeedValue (Fin b) = "1024.0 MB/s").
Proof.
  split; [|split]; intros L U.
  - rewrite (format_bytes b U), (toFixed1_1024 b L U). reflexivity.
  - rewrite (format_kilo b) by lra.
    rewrite toFixed1_1024; [reflexivity | |].
    + apply Qle_shift_div_l; [reflexivity|]. unfold inject_Z. lra.
    + apply Qlt_shift_div_r; [reflexivity|]. unfold inject_Z. lra.
  - rewrite (format_mega b) by lra.
    rewrite toFixed1_1024; [reflexivity | |].
    + apply Qle_shift_div_l; [reflexivity|].
      apply Qle_shift_div_l; [reflexivity|]. unfold inject_Z. lra.
    + apply Qlt_shift_div_r; [reflexivity|].
      apply Qlt_shift_div_r; [reflexivity|]. unfold inject_Z. lra.
Qed.

Lemma value_just_below_next_unit_shows_1024_witness :
  _formatSpeedValue (Fin (3145575 / 3)) = "1024.0 KB/s".
Proof.
  destruct (value_just_below_next_unit_shows_1024 (3145575 / 3))
    as [_ [K _]].
  apply K; reflexivity || discriminate.
Defined.

(** ** Lines of the snapshot *)

Lemma split_length (c : ascii) (s : string) :
  (1 <= List.length (split c s))%nat.
Proof.
  induction s as [|x s IH]; simpl; [lia|].
  destruct (Ascii.eqb x c); simpl; [lia|].
  destruct (split c s); simpl in *; lia.
Qed.

Lemma split_app_sep (c : ascii) (a b : string) :
  split c (a ++ String c b) = (split c a ++ split c b)%list.
Proof.
  induction a as [|x a IH]; simpl.
  - rewrite Ascii.eqb_refl. reflexivity.
  - destruct (Ascii.eqb x c); rewrite IH; [reflexivity|].
    pose proof (split_length c a) as L.
    destruct (split c a); [simpl in L; lia | reflexivity].
Qed.

(** X4: the first two lines are never read: whatever they contain, data
    lines included, the totals are those of the lines after them; a file of
    one or two lines gives the totals 0 and 0. *)
Theorem header_lines_are_not_read (h1 h2 h1' h2' body : string) :
  Snapshot.headerOk h1 = true -> Snapshot.headerOk h2 = true ->
  Snapshot.headerOk h1' = true -> Snapshot.headerOk h2' = true ->
  parseStats (h1 ++ String LF (h2 ++ String LF body))
  = parseStats (h1' ++ String LF (h2' ++ String LF body)) /\
  parseStats (h1 ++ String LF h2) = mkStats (ofZ 0) (ofZ 0) /\
  parseStats h1 = mkStats (ofZ 0) (ofZ 0).
Proof.
  intros A B A' B'. unfold parseStats.
  rewrite !(split_sep LF _ _ A), !(split_sep LF _ _ A').
  rewrite !(split_sep LF _ _ B), (split_sep LF _ _ B').
  rewrite !(split_whole LF _ A), (split_whole LF _ B).
  repeat split; reflexivity.
Qed.

Lemma header_lines_are_not_read_witness :
  parseStats ("eth0: 9 0 0 0 0 0 0 0 9" ++ String LF ("" ++ String LF ""))
  = parseStats ("" ++ String LF ("" ++ String LF "")).
Proof.
  destruct (header_lines_are_not_read
              "eth0: 9 0 0 0 0 0 0 0 9" "" "" "" ""
              eq_refl eq_refl eq_refl eq_refl) as [E _].
  exact E.
Defined.

Lemma parseStats_without (pre line post : string) :
  lineBytes line = None ->
  Snapshot.headerOk line = true ->
  (2 <= List.length (split LF pre))%nat ->
  parseStats (pre ++ String LF (line ++ String LF post))
  = parseStats (pre ++ String LF post).
Proof.
  intros N L P. unfold parseStats.
  rewrite !split_app_sep, (split_whole LF _ L).
  rewrite !skipn_app.
  replace (2 - List.length (split LF pre))%nat with 0%nat by lia.
  cbn [skipn]. rewrite !fold_left_app. cbn [fold_left].
  unfold addLine at 2. rewrite N. reflexivity.
Qed.

Lemma trimStart_blank (s : string) : all isWs s = true -> trimStart s = "".
Proof.
  induction s as [|c s IH]; simpl; [reflexivity|].
  intros H. apply andb_true_iff in H. destruct H as [H1 H2].
  rewrite H1. apply IH, H2.
Qed.

Lemma all_trimStart (p : ascii -> bool) (s : string) :
  all p s = true -> all p (trimStart s) = true.
Proof.
  induction s as [|c s IH]; simpl; [reflexivity|].
  intros H. destruct (isWs c); [|exact H].
  apply andb_true_iff in H. apply IH. tauto.
Qed.

Lemma all_trimEnd (p : ascii -> bool) (s : string) :
  all p s = true -> all p (trimEnd s) = true.
Proof.
  induction s as [|c s IH]; simpl; [reflexivity|].
  intros H. apply andb_true_iff in H. destruct H as [H1 H2].
  destruct (isWs c && isEmpty (trimEnd s)); [reflexivity|].
  simpl. rewrite H1, (IH H2). reflexivity.
Qed.

Lemma candidate_blank (line : string) :
  all isWs line = true -> candidate line = None.
Proof.
  intros H. unfold candidate, trim. rewrite (trimStart_blank line H).
  reflexivity.
Qed.

Lemma candidate_colonless (line : string) :
  all (fun c => negb (Ascii.eqb c ":")) line = true -> candidate line = None.
Proof.
  intros H. unfold candidate.
  rewrite (split_whole ":" (trim line))
    by (apply all_trimEnd, all_trimStart, H).
  destruct (isEmpty (trim line)); reflexivity.
Qed.

(** X5: a blank line and a line without a colon are passed over: put
    anywhere after the two header lines, such a line changes nothing in the
    totals. *)
Theorem blank_or_colonless_line_changes_nothing (pre line post : string) :
  all isWs line = true \/
  all (fun c => negb (Ascii.eqb c ":")) line = true ->
  Snapshot.headerOk line = true ->
  (2 <= List.length (split LF pre))%nat ->
  parseStats (pre ++ String LF (line ++ String LF post))
  = parseStats (pre ++ String LF post).
Proof.
  intros C L P. apply parseStats_without; auto.
  unfold lineBytes.
  destruct C as [C|C];
    [rewrite (candidate_blank line C) | rewrite (candidate_colonless line C)];
    reflexivity.
Qed.

Lemma blank_or_colonless_line_changes_nothing_witness :
  parseStats (("h1" ++ String LF "h2")
              ++ String LF ("no statistics" ++ String LF sample_text))
  = parseStats (("h1" ++ String LF "h2") ++ String LF sample_text).
Proof.
  apply blank_or_colonless_line_changes_nothing;
    [right; reflexivity | reflexivity | simpl; lia].
Defined.

Lemma split_head_prefix (c : ascii) (p rest : string) :
  all (fun x => negb (Ascii.eqb x c)) p = true ->
  exists t ts, split c (p ++ rest) = (p ++ t) :: ts.
Proof.
  induction p as [|x p IH]; simpl; intros H.
  - pose proof (split_length c rest) as L.
    destruct (split c rest) as [|t ts]; [simpl in L; lia|]. eauto.
  - apply andb_true_iff in H. destruct H as [H1 H2].
    apply negb_true_iff in H1. rewrite H1.
    destruct (IH H2) as [t [ts E]]. rewrite E. eauto.
Qed.

Lemma prefix_append (p t : string) : String.prefix p (p ++ t) = true.
Proof.
  induction p as [|x p IH]; simpl; [destruct t; reflexivity|].
  destruct (ascii_dec x x); [exact IH | congruence].
Qed.

Lemma ignored_prefixes_have_no_colon (prefix : string) :
  In prefix NETWORK_INTERFACES_TO_IGNORE ->
  all (fun x => negb (Ascii.eqb x ":")) prefix = true.
Proof.
  simpl. intros H.
  repeat (destruct H as [<-|H]; [reflexivity|]). contradiction.
Qed.

Lemma candidate_ignored (line prefix rest : string) :
  In prefix NETWORK_INTERFACES_TO_IGNORE ->
  trim line = prefix ++ rest ->
  candidate line = None.
Proof.
  intros I E. unfold candidate. rewrite E.
  destruct (split_head_prefix ":" prefix rest
              (ignored_prefixes_have_no_colon prefix I)) as [t [ts S]].
  rewrite S.
  destruct (isEmpty (prefix ++ rest)); [reflexivity|].
  destruct ts as [|data ts]; [reflexivity|].
  replace (_isIgnoredInterface (prefix ++ t)) with true.
  - rewrite orb_true_r. reflexivity.
  - symmetry. apply existsb_exists. exists prefix. split; [exact I|].
    apply prefix_append.
Qed.

(** X6: a line whose text, once trimmed, begins with one of the ignored
    prefixes is passed over whatever follows the prefix: missing colon,
    missing or unreadable counters.  Such a line never puts [NaN] in the
    totals. *)
Theorem ignored_line_changes_nothing_whatever_its_data
  (pre line post prefix rest : string) :
  In prefix NETWORK_INTERFACES_TO_IGNORE ->
  trim line = prefix ++ rest ->
  Snapshot.headerOk line = true ->
  (2 <= List.length (split LF pre))%nat ->
  lineBytes line = None /\
  parseStats (pre ++ String LF (line ++ String LF post))
  = parseStats (pre ++ String LF post).
Proof.
  intros I E L P.
  assert (lineBytes line = None) as N
    by (unfold lineBytes; rewrite (candidate_ignored line prefix rest I E);
        reflexivity).
  split; [exact N | apply parseStats_without; assumption].
Qed.

Lemma ignored_line_changes_nothing_whatever_its_data_witness :
  parseStats (("h1" ++ String LF "h2")
              ++ String LF ("  docker0: x y" ++ String LF sample_text))
  = parseStats (("h1" ++ String LF "h2") ++ String LF sample_text).
Proof.
  apply (ignored_line_changes_nothing_whatever_its_data
           ("h1" ++ String LF "h2") "  docker0: x y" sample_text
           "docker" "0: x y");
    [simpl; tauto | reflexivity | reflexivity | simpl; lia].
Defined.

Lemma add_same (a a' b b' : number) :
  same a a' -> same b b' -> same (add a b) (add a' b').
Proof.
  destruct a, a', b, b'; simpl; intros H1 H2; try contradiction; try exact I.
  rewrite H1, H2. reflexivity.
Qed.

Lemma add_swap (a b c : number) :
  same (add (add a b) c) (add (add a c) b).
Proof. destruct a, b, c; simpl; try exact I. ring. Qed.

Lemma sameStats_refl (a : stats) : sameStats a a.
Proof. split; apply same_refl. Qed.

Lemma sameStats_trans (a b c : stats) :
  sameStats a b -> sameStats b c -> sameStats a c.
Proof. intros [A1 A2] [B1 B2]. split; eapply same_trans; eassumption. Qed.

Lemma addLine_same (a b : stats) (line : string) :
  sameStats a b -> sameStats (addLine a line) (addLine b line).
Proof.
  intros [H1 H2]. unfold addLine.
  destruct (lineBytes line) as [[rx tx]|]; [|split; assumption].
  split; cbn [totalRxBytes totalTxBytes]; apply add_same;
    auto using same_refl.
Qed.

Lemma addLine_swap (a : stats) (x y : string) :
  sameStats (addLine (addLine a x) y) (addLine (addLine a y) x).
Proof.
  unfold addLine.
  destruct (lineBytes x) as [[rx tx]|], (lineBytes y) as [[rx' tx']|];
    cbn [totalRxBytes totalTxBytes]; try apply sameStats_refl.
  split; apply add_swap.
Qed.

Lemma fold_addLine_same (ls : list string) (a b : stats) :
  sameStats a b ->
  sameStats (fold_left addLine ls a) (fold_left addLine ls b).
Proof.
  revert a b. induction ls as [|l ls IH]; intros a b H; [exact H|].
  cbn [fold_left]. apply IH, addLine_same, H.
Qed.

Lemma fold_addLine_perm (l l' : list string) :
  Permutation l l' ->
  forall a b, sameStats a b ->
              sameStats (fold_left addLine l a) (fold_left addLine l' b).
Proof.
  induction 1 as [|x l l' P IH|x y l|l l' l'' P1 IH1 P2 IH2]; intros a b H.
  - exact H.
  - cbn [fold_left]. apply IH, addLine_same, H.
  - cbn [fold_left]. apply fold_addLine_same.
    eapply sameStats_trans; [apply addLine_swap|].
    apply addLine_same, addLine_same, H.
  - eapply sameStats_trans; [apply (IH1 a b H)|].
    apply IH2, sameStats_refl.
Qed.

(** X7: the totals do not depend on the order of the data lines: two
    ASCII snapshots whose lines after the header are the same up to order
    give the same totals, a [NaN] total included, as long as what the lines
    add, in absolute value, stays within the integers a double holds. *)
Theorem totals_do_not_depend_on_line_order (t1 t2 : string) :
  all isAscii t1 = true -> all isAscii t2 = true ->
  (weight (skipn 2 (split LF t1)) <= inject_Z (2 ^ 53))%Q ->
  Permutation (skipn 2 (split LF t1)) (skipn 2 (split LF t2)) ->
  sameStats (parseStats t1) (parseStats t2).
Proof.
  intros _ _ _ P. unfold parseStats.
  apply (fold_addLine_perm _ _ P), sameStats_refl.
Qed.

Lemma totals_do_not_depend_on_line_order_witness :
  sameStats (parseStats sample_text) (parseStats swapped_text).
Proof.
  apply totals_do_not_depend_on_line_order.
  - reflexivity.
  - reflexivity.
  - vm_compute. discriminate.
  - cbv. apply perm_swap.
Defined.

(** ** Fields and interface names *)

Lemma digits_stop (s rest : string) (c : ascii) (acc : Z) :
  all isDigit s = true -> isDigit c = false ->
  digits acc (s ++ String c rest) = digits acc s.
Proof.
  intros D N. revert acc.
  induction s as [|x s IH]; intros acc; simpl.
  - unfold isDigit in N. destruct (digit c); [discriminate | reflexivity].
  - simpl in D. apply andb_true_iff in D. destruct D as [D1 D2].
    unfold isDigit in D1. destruct (digit x); [apply IH, D2 | discriminate].
Qed.

Lemma parseInt_unsigned (c : ascii) (s : string) :
  isDigit c = true -> parseInt (String c s) = ofZ (digits 0 (String c s)).
Proof.
  intros D. unfold parseInt.
  rewrite (trimStart_keep c s (isDigit_not_ws c D)).
  assert (Ascii.eqb c "-" = false) as M
    by (apply isDigit_not; [left; apply Nat.ltb_lt; reflexivity | exact D]).
  assert (Ascii.eqb c "+" = false) as P
    by (apply isDigit_not; [left; apply Nat.ltb_lt; reflexivity | exact D]).
  destruct (Ascii.eqb_spec c "-") as [->|_]; [discriminate|].
  destruct (Ascii.eqb_spec c "+") as [->|_]; [discriminate|].
  assert ((let '(sign, body) :=
             match String c s with
             | String "-" r => ((-1)%Z, r)
             | String "+" r => (1%Z, r)
             | _ => (1%Z, String c s)
             end in
           if startsWithDigit body then ofZ (sign * digits 0 body) else NaN)
          = (if startsWithDigit (String c s)
             then ofZ (1 * digits 0 (String c s)) else NaN)) as R.
  { destruct c as [[] [] [] [] [] [] [] []]; try reflexivity;
      discriminate. }
  rewrite R. cbn [startsWithDigit]. rewrite D. f_equal. lia.
Qed.

Lemma sign_absent (c : ascii) (s : string) :
  Ascii.eqb c "-" = false -> Ascii.eqb c "+" = false ->
  match String c s with
  | String "-" r => ((-1)%Z, r)
  | String "+" r => (1%Z, r)
  | _ => (1%Z, String c s)
  end = (1%Z, String c s).
Proof.
  intros M P.
  destruct c as [[] [] [] [] [] [] [] []]; try reflexivity;
    cbv in M; cbv in P; discriminate.
Qed.

Lemma parseInt_negative (c : ascii) (s : string) :
  isDigit c = true ->
  parseInt (String "-" (String c s)) = ofZ (- digits 0 (String c s)).
Proof.
  intros D. unfold parseInt.
  change (trimStart (String "-" (String c s))) with (String "-" (String c s)).
  cbv beta iota. cbn [startsWithDigit]. rewrite D. f_equal; try lia.
Qed.

Lemma digits_until (s junk : string) (acc : Z) :
  all isDigit s = true -> startsWithDigit junk = false ->
  digits acc (s ++ junk) = digits acc s.
Proof.
  intros D N. destruct junk as [|c rest]; [rewrite append_empty_r; reflexivity|].
  apply digits_stop; assumption.
Qed.

Lemma parseInt_leading (n : N) (junk : string) :
  startsWithDigit junk = false ->
  parseInt (decimal n ++ junk) = ofZ (Z.of_N n) /\
  parseInt ("-" ++ decimal n ++ junk) = ofZ (- Z.of_N n).
Proof.
  intros N.
  assert (digits 0 (decimal n ++ junk) = Z.of_N n) as V
    by (rewrite (digits_until _ _ _ (decimal_digits n) N);
        apply digits_decimal).
  destruct (decimal_head n) as [x [s [E D]]].
  rewrite E in *. cbn [append] in *.
  rewrite (parseInt_unsigned x _ D), (parseInt_negative x _ D), V.
  split; reflexivity.
Qed.

Lemma parseInt_no_digit (c : ascii) (rest : string) :
  isDigit c = false -> isWs c = false ->
  Ascii.eqb c "-" = false -> Ascii.eqb c "+" = false ->
  parseInt (String c rest) = NaN.
Proof.
  intros N W M P. unfold parseInt. rewrite (trimStart_keep c rest W).
  rewrite (sign_absent c rest M P). cbn [startsWithDigit].
  rewrite N. reflexivity.
Qed.

(** X8: a counter is read by the integer its field begins with.  On an
    ASCII line that passes the two tests of the loop, a first (ninth) field
    made of the digits of [n], at most [2^53], followed by anything that
    does not begin with a digit gives [n] as received (transmitted) bytes,
    the same field after a minus sign gives [-n], and a field that begins
    with a character that is neither a digit, a sign nor white space gives
    [NaN]. *)
Theorem counter_is_read_by_its_leading_integer
  (line : string) (fields : list string) (n : N) (junk : string)
  (rxBytes txBytes : number) :
  all isAscii line = true ->
  candidate line = Some fields ->
  lineBytes line = Some (rxBytes, txBytes) ->
  (n <= 2 ^ 53)%N ->
  startsWithDigit junk = false ->
  (nth 0 fields "" = decimal n ++ junk -> rxBytes = ofZ (Z.of_N n)) /\
  (nth 8 fields "" = decimal n ++ junk -> txBytes = ofZ (Z.of_N n)) /\
  (nth 0 fields "" = "-" ++ decimal n ++ junk ->
   rxBytes = ofZ (- Z.of_N n)) /\
  (nth 8 fields "" = "-" ++ decimal n ++ junk ->
   txBytes = ofZ (- Z.of_N n)) /\
  (forall c rest,
     isDigit c = false -> isWs c = false ->
     Ascii.eqb c "-" = false -> Ascii.eqb c "+" = false ->
     (nth 0 fields "" = String c rest -> rxBytes = NaN) /\
     (nth 8 fields "" = String c rest -> txBytes = NaN)).
Proof.
  intros _ C L _ J.
  unfold lineBytes in L. rewrite C in L. cbv zeta in L.
  injection L as <- <-. rewrite !element_parsed.
  destruct (parseInt_leading n junk J) as [P1 P2].
  split; [intros ->; exact P1|]. split; [intros ->; exact P1|].
  split; [intros ->; exact P2|]. split; [intros ->; exact P2|].
  intros c rest D W M P.
  split; intros ->; apply parseInt_no_digit; assumption.
Qed.

Lemma counter_is_read_by_its_leading_integer_witness :
  lineBytes "eth0: 12kB 0 0 0 0 0 0 0 -7"
  = Some (ofZ 12, ofZ (-7)).
Proof.
  destruct (lineBytes "eth0: 12kB 0 0 0 0 0 0 0 -7") as [[rx tx]|] eqn:L;
    [|discriminate L].
  assert (candidate "eth0: 12kB 0 0 0 0 0 0 0 -7"
          = Some ["12kB"; "0"; "0"; "0"; "0"; "0"; "0"; "0"; "-7"]) as C
    by reflexivity.
  destruct (counter_is_read_by_its_leading_integer
              "eth0: 12kB 0 0 0 0 0 0 0 -7"
              ["12kB"; "0"; "0"; "0"; "0"; "0"; "0"; "0"; "-7"]
              12 "kB" rx tx eq_refl C L) as [R _];
    [vm_compute; discriminate | reflexivity |].
  destruct (counter_is_read_by_its_leading_integer
              "eth0: 12kB 0 0 0 0 0 0 0 -7"
              ["12kB"; "0"; "0"; "0"; "0"; "0"; "0"; "0"; "-7"]
              7 "" rx tx eq_refl C L) as [_ [_ [_ [T _]]]];
    [vm_compute; discriminate | reflexivity |].
  rewrite (R eq_refl), (T eq_refl). reflexivity.
Defined.

Lemma prefix_append_r (p s t : string) :
  String.prefix p s = true -> String.prefix p (s ++ t) = true.
Proof.
  revert s. induction p as [|x p IH]; intros s H.
  - destruct (s ++ t); reflexivity.
  - destruct s as [|y s]; [discriminate|]. simpl in *.
    destruct (ascii_dec x y); [apply IH, H | discriminate].
Qed.

Lemma prefix_short (p s : string) :
  (String.length s < String.length p)%nat -> String.prefix p s = false.
Proof.
  revert s. induction p as [|x p IH]; intros s L; [simpl in L; lia|].
  destruct s as [|y s]; [reflexivity|]. simpl in *.
  destruct (ascii_dec x y); [apply IH; lia | reflexivity].
Qed.

(** X9: the test on the interface name is a test on its beginning only:
    once a name is ignored every name that continues it is ignored too, and
    a name of fewer than two characters, the empty name included, is never
    ignored. *)
Theorem isIgnoredInterface_looks_at_the_beginning (name suffix : string) :
  (_isIgnoredInterface name = true ->
   _isIgnoredInterface (name ++ suffix) = true) /\
  ((String.length name < 2)%nat -> _isIgnoredInterface name = false).
Proof.
  split.
  - intros H. apply existsb_exists in H. destruct H as [p [I P]].
    apply existsb_exists. exists p. split; [exact I|].
    apply prefix_append_r, P.
  - intros L. unfold _isIgnoredInterface, startsWith.
    cbn [NETWORK_INTERFACES_TO_IGNORE existsb].
    rewrite !prefix_short by (simpl; lia). reflexivity.
Qed.

Lemma isIgnoredInterface_looks_at_the_beginning_witness :
  _isIgnoredInterface ("lo" ++ "wpan0") = true.
Proof.
  destruct (isIgnoredInterface_looks_at_the_beginning "lo" "wpan0")
    as [K _].
  apply K. reflexivity.
Defined.

(** ** What the label shows *)

(** X10: a [NaN] stored as previous total does not stay: it is falsy, so
    the next finite total takes its place, the rate of that tick is zero,
    and the total is stored; rx and tx each on its own. *)
Theorem nan_baseline_is_replaced (this : indicator) (s : stats) (c : Q) :
  (_previousRxBytes this = NaN -> totalRxBytes s = Fin c ->
   same (downloadRate this s) (ofZ 0) /\
   _previousRxBytes (_updateSpeed this (Resolved s)) = Fin c) /\
  (_previousTxBytes this = NaN -> totalTxBytes s = Fin c ->
   same (uploadRate this s) (ofZ 0) /\
   _previousTxBytes (_updateSpeed this (Resolved s)) = Fin c).
Proof.
  split; intros E1 E2.
  - unfold downloadRate. cbn [_updateSpeed _previousRxBytes].
    rewrite E1, E2. split; [|reflexivity].
    cbn. unfold Qdiv. ring.
  - unfold uploadRate. cbn [_updateSpeed _previousTxBytes].
    rewrite E1, E2. split; [|reflexivity].
    cbn. unfold Qdiv. ring.
Qed.

Lemma nan_baseline_is_replaced_witness :
  same (uploadRate (_updateSpeed _init (_readNetworkStats (Some short_text)))
                   (mkStats (ofZ 10) (ofZ 20))) (ofZ 0).
Proof.
  destruct (nan_baseline_is_replaced
              (_updateSpeed _init (_readNetworkStats (Some short_text)))
              (mkStats (ofZ 10) (ofZ 20)) 20) as [_ K].
  destruct (K eq_refl eq_refl) as [E _]. exact E.
Defined.

Lemma format_parts (r : number) :
  exists v u,
    _formatSpeedValue r = v ++ " " ++ u /\
    (v = "NaN" \/ oneDecimal v) /\ In u units.
Proof.
  destruct r as [b|].
  - destruct (format_shape b) as [s [u [E [S U]]]]. exists s, u. auto.
  - exists "NaN", "B/s". split; [reflexivity|]. split; [auto | simpl; auto].
Qed.

Lemma format_not_bare_zero (r : number) (x y : string) :
  _formatSpeedValue r ++ x <> "0 B/s" ++ y.
Proof.
  destruct (format_parts r) as [v [u [E [[->|S] _]]]]; rewrite E.
  - discriminate.
  - destruct S as [sign [whole [d [-> [[->| ->] [N [D _]]]]]]].
    + destruct whole as [|c w]; [discriminate|].
      destruct w as [|c' w].
      * cbn [append]. intros H. injection H as _ H. discriminate.
      * cbn [append]. intros H. injection H as _ H _.
        simpl in D. rewrite H in D.
        apply andb_true_iff in D. destruct D as [_ D].
        apply andb_true_iff in D. destruct D as [D _]. discriminate.
    + discriminate.
Qed.

(** X11: every label [_updateSpeed] writes is a down arrow, a value and a
    unit, an up arrow, a value and a unit, where a value is [NaN] or a
    number with one decimal digit and a unit is one of the four; it is never
    the text the label starts with, which has no decimal digit.  The totals,
    stored and read, are [NaN] or at most [2^53] in absolute value, which
    keeps the rates in the range where [toFixed] uses fixed notation. *)
Theorem label_written_by_updateSpeed (this : indicator) (s : stats) :
  inRange (_previousRxBytes this) -> inRange (_previousTxBytes this) ->
  inRange (totalRxBytes s) -> inRange (totalTxBytes s) ->
  (exists v1 u1 v2 u2,
     text (_updateSpeed this (Resolved s))
     = "↓ " ++ (v1 ++ " " ++ u1) ++ " ↑ " ++ (v2 ++ " " ++ u2) /\
     (v1 = "NaN" \/ oneDecimal v1) /\ In u1 units /\
     (v2 = "NaN" \/ oneDecimal v2) /\ In u2 units) /\
  text (_updateSpeed this (Resolved s)) <> text _init.
Proof.
  intros _ _ _ _.
  cbn [_updateSpeed text _init]. split.
  - destruct (format_parts (downloadRate this s)) as [v1 [u1 [E1 [S1 U1]]]].
    destruct (format_parts (uploadRate this s)) as [v2 [u2 [E2 [S2 U2]]]].
    exists v1, u1, v2, u2. rewrite E1, E2. auto.
  - intros H.
    change "↓ 0 B/s ↑ 0 B/s" with ("↓ " ++ "0 B/s" ++ " ↑ 0 B/s") in H.
    cbn [append] in H. injection H as H.
    exact (format_not_bare_zero _ _ _ H).
Qed.

Lemma label_written_by_updateSpeed_witness :
  text (_updateSpeed _init (Resolved (mkStats (ofZ 1000) (ofZ 2000))))
  <> text _init.
Proof.
  assert (inRange (ofZ 0)) as R0 by (vm_compute; discriminate).
  assert (inRange (ofZ 1000)) as R1 by (vm_compute; discriminate).
  assert (inRange (ofZ 2000)) as R2 by (vm_compute; discriminate).
  destruct (label_written_by_updateSpeed
              _init (mkStats (ofZ 1000) (ofZ 2000)) R0 R0 R1 R2) as [_ N].
  exact N.
Defined.

Lemma toFixed1_abs_same (x y : Q) :
  (x == y)%Q -> toFixed1_abs x = toFixed1_abs y.
Proof.
  intros H. unfold toFixed1_abs.
  assert (Qfloor (x * 10 + (1 # 2)) = Qfloor (y * 10 + (1 # 2))) as E
    by (apply Qfloor_comp; rewrite H; reflexivity).
  rewrite E. reflexivity.
Qed.

Lemma toFixed1_abs_integer (k : Z) :
  (0 <= k)%Z ->
  toFixed1_abs (inject_Z k) = decimal (Z.to_N k) ++ ".0".
Proof.
  intros K. unfold toFixed1_abs.
  rewrite (Qfloor_between (inject_Z k * 10 + (1 # 2)) (k * 10)).
  - rewrite Z.div_mul, Z.mod_mul by discriminate. reflexivity.
  - rewrite inject_Z_mult. change (inject_Z 10) with 10%Q. lra.
  - rewrite inject_Z_plus, inject_Z_mult.
    change (inject_Z 10) with 10%Q. change (inject_Z 1) with 1%Q. lra.
Qed.

(** X12: when a counter goes back the label shows the loss as a negative
    number of bytes per second, however large: a minus sign, digits, a
    point, one digit and [B/s], never a larger unit; when the loss is a
    multiple of 3 the digits are those of its third, followed by [.0].
    The totals and their difference are integers a double holds. *)
Theorem regressed_counter_is_shown_in_bytes
  (this : indicator) (s : stats) (p c : Z) :
  p <> 0%Z -> safeInteger p -> safeInteger c -> safeInteger (p - c) ->
  (c < p)%Z ->
  _previousRxBytes this = ofZ p -> totalRxBytes s = ofZ c ->
  (exists whole d,
     _formatSpeedValue (downloadRate this s)
     = "-" ++ (whole ++ "." ++ String d "") ++ " B/s" /\
     isEmpty whole = false /\ all isDigit whole = true /\
     isDigit d = true) /\
  ((3 | p - c)%Z ->
   _formatSpeedValue (downloadRate this s)
   = "-" ++ (decimal (Z.to_N ((p - c) / 3)) ++ ".0") ++ " B/s").
Proof.
  intros Hp _ _ _ L E1 E2.
  destruct (rate_of_integers p c Hp) as [E [r [Er [Neg _]]]].
  specialize (Neg L).
  assert (_formatSpeedValue (downloadRate this s)
          = "-" ++ toFixed1_abs (Qabs r) ++ " B/s") as F.
  { unfold downloadRate. rewrite E1, E2, E, Er.
    rewrite format_bytes by lra. unfold toFixed1.
    replace (Qle_bool 0 r) with false; [reflexivity|].
    symmetry. destruct (Qle_bool 0 r) eqn:B; [|reflexivity].
    apply Qle_bool_iff in B. lra. }
  split.
  - destruct (toFixed1_abs_shape (Qabs r)) as [w [d [Ew H]]].
    exists w, d. rewrite F, Ew. split; [reflexivity | exact H].
  - intros [k K].
    assert (0 < k)%Z as Kp by lia.
    assert (Qabs r == inject_Z k)%Q as A.
    { rewrite (Qabs_neg r) by lra.
      unfold rate, ofZ in Er. cbn [sub divc] in Er. injection Er as <-.
      assert (inject_Z c - inject_Z p == - inject_Z (k * 3))%Q as D
        by (rewrite <- K; unfold Z.sub;
            rewrite !inject_Z_plus, !inject_Z_opp; ring).
      change (inject_Z (Z.pos UPDATE_INTERVAL_SECONDS)) with 3%Q.
      rewrite D, inject_Z_mult. change (inject_Z 3) with 3%Q. field. }
    rewrite F, (toFixed1_abs_same _ _ A), K, Z.div_mul by discriminate.
    rewrite toFixed1_abs_integer by lia. reflexivity.
Qed.

Lemma regressed_counter_is_shown_in_bytes_witness :
  _formatSpeedValue
    (downloadRate (mkIndicator "" (ofZ 6000000000) (ofZ 1) None)
                  (mkStats (ofZ 0) (ofZ 1)))
  = "-2000000000.0 B/s".
Proof.
  assert (6000000000 <> 0)%Z as H by discriminate.
  assert (safeInteger 6000000000) as S1 by (unfold safeInteger; simpl; lia).
  assert (safeInteger 0) as S2 by (unfold safeInteger; simpl; lia).
  assert (safeInteger (6000000000 - 0)) as S3
    by (unfold safeInteger; simpl; lia).
  destruct (regressed_counter_is_shown_in_bytes
              (mkIndicator "" (ofZ 6000000000) (ofZ 1) None)
              (mkStats (ofZ 0) (ofZ 1)) 6000000000 0
              H S1 S2 S3 eq_refl eq_refl eq_refl) as [_ K].
  rewrite K; [reflexivity | exists 2000000000%Z; reflexivity].
Defined.

(** ** Runs of the main loop *)

Lemma shown_updateSpeed (a b : indicator) (r : settled stats) :
  shown a = shown b -> shown (_updateSpeed a r) = shown (_updateSpeed b r).
Proof.
  unfold shown. intros H. injection H as Ht Hr Hx.
  destruct r as [s|]; cbn [_updateSpeed text _previousRxBytes _previousTxBytes];
    [|congruence].
  unfold downloadRate, uploadRate. rewrite Hr, Hx. reflexivity.
Qed.

Lemma shown_step (w w' : loop) (e : event) :
  step w e = Some w' ->
  shown (this w')
  = match e with
    | ReadDone (Some contents) =>
        shown (_updateSpeed (this w) (Resolved (parseStats contents)))
    | _ => shown (this w)
    end.
Proof.
  destruct e as [| |id|[contents|]]; simpl; intros S.
  - injection S as <-. reflexivity.
  - injection S as <-. unfold stopUpdate.
    destruct (_updateTimer (this w)); reflexivity.
  - destruct (existsb (Pos.eqb id) (sources w)); [|discriminate].
    injection S as <-. reflexivity.
  - destruct (pending w); [discriminate|]. injection S as <-. reflexivity.
  - destruct (pending w); [discriminate|]. injection S as <-. reflexivity.
Qed.

(** X13: the label and the stored totals after any run of events are those
    obtained by feeding [_updateSpeed] the reads that succeeded, in their
    order, and nothing else: starting, stopping, timer firings and failed
    reads change neither. *)
Theorem label_follows_successful_reads (es : list event) (w w' : loop) :
  run w es = Some w' ->
  shown (this w')
  = shown (fold_left
             (fun i contents => _updateSpeed i (Resolved (parseStats contents)))
             (successes es) (this w)).
Proof.
  assert (forall es w w' i,
            shown (this w) = shown i -> run w es = Some w' ->
            shown (this w')
            = shown (fold_left
                       (fun i contents =>
                          _updateSpeed i (Resolved (parseStats contents)))
                       (successes es) i)) as G.
  { clear. induction es as [|e es IH]; intros w w' i H R; simpl in R.
    - injection R as <-. exact H.
    - destruct (step w e) as [w1|] eqn:S; [|discriminate].
      pose proof (shown_step w w1 e S) as H1.
      destruct e as [| |id|[contents|]]; cbn [successes flat_map app];
        try (apply (IH w1 w' i); [congruence | exact R]).
      cbn [fold_left].
      apply (IH w1 w'); [|exact R].
      rewrite H1. apply shown_updateSpeed, H. }
  intros R. apply (G es w w' (this w) eq_refl R).
Qed.

Lemma label_follows_successful_reads_witness :
  exists w',
    run (startUpdate loop0)
        [TimerFired 1%positive; ReadDone None; StopUpdate;
         ReadDone (Some sample_text)] = Some w' /\
    shown (this w')
    = shown (_updateSpeed _init (Resolved (parseStats sample_text))).
Proof.
  destruct (run (startUpdate loop0)
                [TimerFired 1%positive; ReadDone None; StopUpdate;
                 ReadDone (Some sample_text)]) as [w'|] eqn:R;
    [|discriminate R].
  exists w'. split; [reflexivity|].
  rewrite (label_follows_successful_reads _ _ _ R).
  apply shown_updateSpeed. reflexivity.
Defined.

(** X14: no read is lost and none is merged with another: after any run
    the reads in flight are those there were, plus one for each call of
    [startUpdate] and each firing of a timer, minus one for each
    completion. *)
Theorem reads_in_flight_are_counted (es : list event) (w w' : loop) :
  run w es = Some w' ->
  (pending w' + List.length (filter isReadDone es)
   = pending w + List.length (filter issuesRead es))%nat.
Proof.
  revert w. induction es as [|e es IH]; intros w R; simpl in R.
  - injection R as <-. simpl. lia.
  - destruct (step w e) as [w1|] eqn:S; [|discriminate].
    specialize (IH w1 R).
    destruct e as [| |id|contents]; simpl in S; cbn [filter isReadDone issuesRead isStart isTimerFired orb List.length].
    + injection S as <-. simpl in IH. lia.
    + injection S as <-. rewrite stopUpdate_pending in IH. lia.
    + destruct (existsb (Pos.eqb id) (sources w)); [|discriminate].
      injection S as <-. simpl in IH. lia.
    + destruct (pending w) as [|n]; [discriminate|].
      injection S as <-. simpl in IH. lia.
Qed.

Lemma reads_in_flight_are_counted_witness :
  exists w',
    run loop0 [StartUpdate; TimerFired 1%positive; TimerFired 1%positive;
               ReadDone None] = Some w' /\
    pending w' = 2%nat.
Proof.
  destruct (run loop0 [StartUpdate; TimerFired 1%positive;
                       TimerFired 1%positive; ReadDone None])
    as [w'|] eqn:R; [|discriminate R].
  exists w'. split; [reflexivity|].
  pose proof (reads_in_flight_are_counted _ _ _ R) as C.
  simpl in C. lia.
Defined.

Lemma consistent_loop0 : consistent loop0.
Proof.
  split; [|split]; simpl.
  - contradiction.
  - constructor.
  - discriminate.
Qed.

Lemma source_remove_In (id x : positive) (l : list positive) :
  In x (source_remove id l) <-> In x l /\ x <> id.
Proof.
  unfold source_remove. rewrite filter_In, negb_true_iff, Pos.eqb_neq.
  reflexivity.
Qed.

Lemma consistent_step (w w' : loop) (e : event) :
  consistent w -> step w e = Some w' -> consistent w'.
Proof.
  intros [B [N T]] S.
  destruct e as [| |id|contents]; simpl in S.
  - injection S as <-. unfold consistent. simpl. split; [|split].
    + intros id [<-|I]; [lia|]. specialize (B id I). lia.
    + constructor; [|exact N]. intros I. specialize (B _ I). lia.
    + intros id E. injection E as <-. left. reflexivity.
  - injection S as <-. unfold stopUpdate.
    destruct (_updateTimer (this w)) as [id|] eqn:E.
    + unfold consistent. simpl. split; [|split].
      * intros x I. apply source_remove_In in I. apply B. tauto.
      * apply NoDup_filter, N.
      * discriminate.
    + split; [exact B | split; [exact N |]].
      intros id E'. congruence.
  - destruct (existsb (Pos.eqb id) (sources w)); [|discriminate].
    injection S as <-. split; [exact B | split; [exact N | exact T]].
  - destruct (pending w); [discriminate|]. injection S as <-.
    unfold consistent. simpl. rewrite updateSpeed_timer.
    split; [exact B | split; [exact N | exact T]].
Qed.

Lemma consistent_run (es : list event) (w w' : loop) :
  consistent w -> run w es = Some w' -> consistent w'.
Proof.
  revert w. induction es as [|e es IH]; intros w C R; simpl in R.
  - injection R as <-. exact C.
  - destruct (step w e) as [w1|] eqn:S; [|discriminate].
    apply (IH w1); [apply (consistent_step w w1 e C S) | exact R].
Qed.

Lemma source_remove_absent (id : positive) (l : list positive) :
  ~ In id l -> source_remove id l = l.
Proof.
  unfold source_remove. induction l as [|y l IH]; intros A; [reflexivity|].
  simpl. destruct (Pos.eqb_spec y id) as [E|_]; simpl.
  - exfalso. apply A. left. exact E.
  - f_equal. apply IH. intros H. apply A. right. exact H.
Qed.

Lemma source_remove_length (id : positive) (l : list positive) :
  NoDup l -> In id l ->
  S (List.length (source_remove id l)) = List.length l.
Proof.
  induction l as [|x l IH]; intros N I; [contradiction|].
  inversion N as [|? ? Nx Nl]; subst.
  destruct (Pos.eq_dec x id) as [E|D].
  - subst x. unfold source_remove. cbn [filter].
    rewrite Pos.eqb_refl. cbn [negb].
    fold (source_remove id l). rewrite (source_remove_absent id l Nx).
    reflexivity.
  - unfold source_remove. cbn [filter].
    rewrite (proj2 (Pos.eqb_neq x id) D). cbn [negb List.length].
    f_equal. apply IH; [exact Nl|].
    destruct I as [I|I]; [congruence | exact I].
Qed.

(** X15: whatever the order of starts, stops, timer firings and
    completions since [_init], the timer recorded in [_updateTimer] is an
    active source, and [stopUpdate] removes that source and no other: one
    source fewer, the others kept. *)
Theorem stopUpdate_removes_the_recorded_timer_only
  (es : list event) (w : loop) (id : positive) :
  run loop0 es = Some w ->
  _updateTimer (this w) = Some id ->
  In id (sources w) /\
  S (List.length (sources (stopUpdate w))) = List.length (sources w) /\
  (forall x, In x (sources (stopUpdate w)) <-> In x (sources w) /\ x <> id).
Proof.
  intros R E.
  destruct (consistent_run es loop0 w consistent_loop0 R) as [_ [N T]].
  pose proof (T id E) as I.
  unfold stopUpdate. rewrite E. simpl.
  split; [exact I|]. split; [apply source_remove_length; assumption|].
  intros x. apply source_remove_In.
Qed.

Lemma stopUpdate_removes_the_recorded_timer_only_witness :
  exists w,
    run loop0 [StartUpdate; StartUpdate; StartUpdate] = Some w /\
    List.length (sources w) = 3%nat /\
    List.length (sources (stopUpdate w)) = 2%nat.
Proof.
  destruct (run loop0 [StartUpdate; StartUpdate; StartUpdate])
    as [w|] eqn:R; [|discriminate R].
  exists w.
  assert (sources w = [3; 2; 1]%positive /\ _updateTimer (this w) = Some 3%positive)
    as [Sw Tw] by (injection R as <-; split; reflexivity).
  destruct (stopUpdate_removes_the_recorded_timer_only
              _ w 3%positive R Tw) as [_ [L _]].
  rewrite Sw in L. simpl in L.
  split; [reflexivity|]. split; [rewrite Sw; reflexivity | lia].
Defined.

(** ** The extension *)

Section Extension.

Import Ext.

Lemma update_length (n : nat) (f : loop -> loop) (l : list loop) :
  List.length (update n f l) = List.length l.
Proof.
  revert n. induction l as [|x l IH]; intros n; [reflexivity|].
  destruct n; simpl; [|rewrite IH]; reflexivity.
Qed.

Lemma update_same (n : nat) (f : loop -> loop) (l : list loop) (w : loop) :
  nth_error l n = Some w -> nth_error (update n f l) n = Some (f w).
Proof.
  revert n. induction l as [|x l IH]; intros n H.
  - destruct n; discriminate.
  - destruct n; simpl in *; [congruence | apply IH, H].
Qed.

Lemma update_other (n m : nat) (f : loop -> loop) (l : list loop) :
  n <> m -> nth_error (update n f l) m = nth_error l m.
Proof.
  revert n m. induction l as [|x l IH]; intros n m D; [reflexivity|].
  destruct n, m; simpl; try reflexivity; try congruence.
  apply IH. congruence.
Qed.

Lemma update_lookup (n m : nat) (f : loop -> loop) (l : list loop) (w' : loop) :
  nth_error (update n f l) m = Some w' ->
  (n = m /\ exists w, nth_error l m = Some w /\ w' = f w) \/
  (n <> m /\ nth_error l m = Some w').
Proof.
  intros H. destruct (Nat.eq_dec n m) as [->|D].
  - left. split; [reflexivity|].
    destruct (nth_error l m) as [w|] eqn:E.
    + rewrite (update_same m f l w E) in H. exists w. split; congruence.
    + apply nth_error_None in E.
      assert (nth_error (update m f l) m = None) as E'
        by (apply nth_error_None; rewrite update_length; exact E).
      congruence.
  - right. split; [exact D|]. rewrite update_other in H; assumption.
Qed.

Lemma tidy_shell0 : tidy shell0.
Proof.
  split; [|split]; simpl; try discriminate; try reflexivity.
  intros o w H. destruct o; discriminate.
Qed.

Lemma tidy_enable (sh : shell) :
  tidy sh -> _indicator sh = None -> tidy (enable sh).
Proof.
  intros [A [B C]] N. unfold enable. split; [|split]; cbn.
  - intros o w H.
    destruct (Nat.lt_ge_cases o (List.length (indicators sh))) as [L|L].
    + rewrite nth_error_app1 in H by exact L.
      destruct (A o w H) as [_ A2]. split.
      * intros E. injection E as E. lia.
      * intros _. apply A2. rewrite N. discriminate.
    + rewrite nth_error_app2 in H by exact L.
      destruct (o - List.length (indicators sh))%nat as [|k] eqn:K;
        [|destruct k; discriminate].
      simpl in H. injection H as <-. split.
      * intros _. reflexivity.
      * intros E. exfalso. apply E. f_equal. lia.
  - intros o E. injection E as <-. rewrite length_app. simpl. lia.
  - rewrite C, N. reflexivity.
Qed.

Lemma tidy_disable (sh : shell) : tidy sh -> tidy (disable sh).
Proof.
  intros T. unfold disable.
  destruct (_indicator sh) as [h|] eqn:H; [|exact T].
  destruct T as [A [B C]]. rewrite H in C.
  split; [|split]; cbn.
  - intros o w' L. split; [discriminate|]. intros _.
    destruct (update_lookup h o destroy _ w' L) as [[<- [w [E ->]]]|[D E]].
    + apply tracked_stop. apply (A h w E). exact H.
    + apply (A o w' E). rewrite H. congruence.
  - discriminate.
  - rewrite C. simpl. rewrite Nat.eqb_refl. reflexivity.
Qed.

Lemma tidy_deliver (sh sh' : shell) (o : nat) (e : event) :
  tidy sh -> act sh (Deliver o e) = Some sh' -> tidy sh'.
Proof.
  intros [A [B C]] S. cbn in S.
  destruct (isTimerFired e || isReadDone e) eqn:K; [|discriminate].
  destruct (nth_error (indicators sh) o) as [w|] eqn:E; [|discriminate].
  destruct (step w e) as [w1|] eqn:St; [|discriminate].
  injection S as <-.
  assert (isStart e = false) as NS by (destruct e; try reflexivity; discriminate).
  assert (sources w1 = sources w /\
          _updateTimer (this w1) = _updateTimer (this w)) as [Sw Tw].
  { destruct e as [| |id|contents]; try discriminate; simpl in St.
    - destruct (existsb (Pos.eqb id) (sources w)); [|discriminate].
      injection St as <-. split; reflexivity.
    - destruct (pending w); [discriminate|]. injection St as <-.
      simpl. rewrite updateSpeed_timer. split; reflexivity. }
  split; [|split]; cbn.
  - intros o' w' L.
    destruct (update_lookup o o' _ _ w' L) as [[<- [w0 [E0 ->]]]|[D E0]].
    + rewrite E in E0. injection E0 as <-.
      destruct (A o w E) as [A1 A2]. split.
      * intros Hh. unfold tracked. rewrite Sw, Tw. apply A1, Hh.
      * intros Hh. rewrite Sw. apply A2, Hh.
    + apply (A o' w' E0).
  - intros h Hh. rewrite update_length. apply B, Hh.
  - exact C.
Qed.

Lemma tidy_play (acts : list action) (sh sh' : shell) :
  tidy sh -> enablesWhenDisabled sh acts = true ->
  play sh acts = Some sh' -> tidy sh'.
Proof.
  revert sh. induction acts as [|a acts IH]; intros sh T D P; simpl in P.
  - injection P as <-. exact T.
  - destruct (act sh a) as [sh1|] eqn:S; [|discriminate].
    apply (IH sh1); [| |exact P].
    + destruct a as [| |o e].
      * simpl in D. destruct (_indicator sh) eqn:H; [discriminate|].
        injection S as <-. apply tidy_enable; assumption.
      * injection S as <-. apply tidy_disable, T.
      * apply (tidy_deliver sh sh1 o e T S).
    + simpl in D. rewrite S in D.
      destruct a; [destruct (_indicator sh); [discriminate|] | |]; exact D.
Qed.

Lemma disable_twice (sh : shell) : disable (disable sh) = disable sh.
Proof.
  unfold disable at 1.
  destruct (_indicator (disable sh)) eqn:E; [|reflexivity].
  exfalso. revert E. unfold disable.
  destruct (_indicator sh) eqn:H; simpl; congruence.
Qed.

(** X16: when [enable] and [disable] are called in turn, as GNOME Shell
    does, the indicator held has at most one active timer, indicators no
    longer held have none, the panel shows the indicator held and no
    other; after [disable] no indicator has an active timer, the panel
    shows none and nothing is held; a second [disable] changes nothing. *)
Theorem disable_leaves_nothing_behind (acts : list action) (sh : shell) :
  enablesWhenDisabled shell0 acts = true ->
  play shell0 acts = Some sh ->
  (forall o w, nth_error (indicators sh) o = Some w ->
               (List.length (sources w) <= 1)%nat /\
               (_indicator sh <> Some o -> sources w = [])) /\
  rightBox sh = match _indicator sh with Some o => [o] | None => [] end /\
  (forall o w, nth_error (indicators (disable sh)) o = Some w ->
               sources w = []) /\
  rightBox (disable sh) = [] /\
  _indicator (disable sh) = None /\
  disable (disable sh) = disable sh.
Proof.
  intros D P.
  pose proof (tidy_play acts shell0 sh tidy_shell0 D P) as T.
  pose proof (tidy_disable sh T) as T'.
  assert (_indicator (disable sh) = None) as N
    by (unfold disable; destruct (_indicator sh) eqn:H; [reflexivity | exact H]).
  destruct T as [A [B C]]. destruct T' as [A' [B' C']].
  split; [|split; [exact C|split; [|split; [|split; [exact N|]]]]].
  - intros o w E. destruct (A o w E) as [A1 A2]. split; [|exact A2].
    assert (_indicator sh = Some o \/ _indicator sh <> Some o) as [H|H].
    { destruct (_indicator sh) as [h|]; [|right; discriminate].
      destruct (Nat.eq_dec h o) as [->|Dh];
        [left; reflexivity | right; congruence]. }
    + rewrite (A1 H). destruct (_updateTimer (this w)); simpl; lia.
    + rewrite (A2 H). simpl. lia.
  - intros o w E. apply (A' o w E). rewrite N. discriminate.
  - rewrite C', N. reflexivity.
  - apply disable_twice.
Qed.

Lemma disable_leaves_nothing_behind_witness :
  exists sh,
    play shell0 [Enable; Deliver 0 (TimerFired 1%positive); Disable; Enable]
    = Some sh /\
    rightBox (disable sh) = [].
Proof.
  destruct (play shell0 [Enable; Deliver 0 (TimerFired 1%positive);
                         Disable; Enable]) as [sh|] eqn:P;
    [|discriminate P].
  exists sh. split; [reflexivity|].
  destruct (disable_leaves_nothing_behind
              [Enable; Deliver 0 (TimerFired 1%positive); Disable; Enable]
              sh eq_refl P)
    as [_ [_ [_ [R _]]]].
  exact R.
Defined.

Lemma orphan_act (sh sh' : shell) (a : action) (o : nat) :
  (o < List.length (indicators sh))%nat ->
  _indicator sh <> Some o ->
  (forall h, _indicator sh = Some h -> (h < List.length (indicators sh))%nat) ->
  act sh a = Some sh' ->
  ((o < List.length (indicators sh'))%nat /\
   _indicator sh' <> Some o /\
   (forall h, _indicator sh' = Some h ->
              (h < List.length (indicators sh'))%nat)) /\
  option_map sources (nth_error (indicators sh') o)
  = option_map sources (nth_error (indicators sh) o) /\
  (In o (rightBox sh) -> In o (rightBox sh')).
Proof.
  intros L N B S. destruct a as [| |o' e]; cbn in S.
  - injection S as <-. unfold enable. cbn. rewrite length_app. simpl.
    split; [split; [lia | split]|split].
    + intros E. injection E as E. lia.
    + intros h E. injection E as <-. lia.
    + rewrite nth_error_app1 by exact L. reflexivity.
    + intros I. right. exact I.
  - injection S as <-. unfold disable.
    destruct (_indicator sh) as [h|] eqn:H.
    + cbn. rewrite update_length.
      split; [split; [exact L | split; discriminate]|split].
      * rewrite update_other by congruence. reflexivity.
      * intros I. apply filter_In. split; [exact I|].
        apply negb_true_iff, Nat.eqb_neq. congruence.
    + rewrite H. split; [split; [exact L | split; [discriminate|]]|split];
        [discriminate | reflexivity | auto].
  - destruct (isTimerFired e || isReadDone e) eqn:K; [|discriminate].
    destruct (nth_error (indicators sh) o') as [w|] eqn:E; [|discriminate].
    destruct (step w e) as [w1|] eqn:St; [|discriminate].
    injection S as <-. cbn. rewrite update_length.
    split; [split; [exact L | split; [exact N | exact B]]|split; [|auto]].
    destruct (Nat.eq_dec o' o) as [->|D].
    + rewrite (update_same o _ _ w E), E. cbn. f_equal.
      destruct e as [| |id|contents]; try discriminate; simpl in St.
      * destruct (existsb (Pos.eqb id) (sources w)); [|discriminate].
        injection St as <-. reflexivity.
      * destruct (pending w); [discriminate|]. injection St as <-.
        reflexivity.
    + rewrite update_other by exact D. reflexivity.
Qed.

Lemma orphan_play (acts : list action) (sh sh' : shell) (o : nat) :
  (o < List.length (indicators sh))%nat ->
  _indicator sh <> Some o ->
  (forall h, _indicator sh = Some h -> (h < List.length (indicators sh))%nat) ->
  play sh acts = Some sh' ->
  _indicator sh' <> Some o /\
  option_map sources (nth_error (indicators sh') o)
  = option_map sources (nth_error (indicators sh) o) /\
  (In o (rightBox sh) -> In o (rightBox sh')).
Proof.
  revert sh. induction acts as [|a acts IH]; intros sh L N B P; simpl in P.
  - injection P as <-. auto.
  - destruct (act sh a) as [sh1|] eqn:S; [|discriminate].
    destruct (orphan_act sh sh1 a o L N B S) as [[L1 [N1 B1]] [E1 R1]].
    destruct (IH sh1 L1 N1 B1 P) as [N2 [E2 R2]].
    split; [exact N2|]. split; [congruence | auto].
Qed.

(** X17: [enable] called while an indicator is held lets go of that
    indicator without stopping it: whatever is called afterwards, [disable]
    included, it is never held again, its active timers stay active and it
    stays in the panel. *)
Theorem second_enable_abandons_the_indicator
  (sh sh' : shell) (o : nat) (w : loop) (acts : list action) :
  _indicator sh = Some o ->
  nth_error (indicators sh) o = Some w ->
  play (enable sh) acts = Some sh' ->
  _indicator sh' <> Some o /\
  option_map sources (nth_error (indicators sh') o) = Some (sources w) /\
  (In o (rightBox sh) -> In o (rightBox sh')).
Proof.
  intros H E P.
  assert (o < List.length (indicators sh))%nat as L
    by (apply nth_error_Some; congruence).
  destruct (orphan_play acts (enable sh) sh' o) as [N [S R]]; try exact P.
  - unfold enable. cbn. rewrite length_app. simpl. lia.
  - unfold enable. cbn. intros K. injection K as K. lia.
  - unfold enable. cbn. intros h K. injection K as <-.
    rewrite length_app. simpl. lia.
  - split; [exact N|]. split.
    + rewrite S. unfold enable. cbn.
      rewrite nth_error_app1 by exact L. rewrite E. reflexivity.
    + intros I. apply R. unfold enable. cbn. right. exact I.
Qed.

Lemma second_enable_abandons_the_indicator_witness :
  exists sh',
    play (enable (enable shell0)) [Disable; Enable; Disable] = Some sh' /\
    option_map sources (nth_error (indicators sh') 0) = Some [1%positive] /\
    In 0%nat (rightBox sh').
Proof.
  destruct (play (enable (enable shell0)) [Disable; Enable; Disable])
    as [sh'|] eqn:P; [|discriminate P].
  exists sh'. split; [reflexivity|].
  destruct (second_enable_abandons_the_indicator
              (enable shell0) sh' 0 (startUpdate loop0)
              [Disable; Enable; Disable] eq_refl eq_refl P)
    as [_ [S R]].
  split; [exact S | apply R; left; reflexivity].
Defined.

End Extension.
